(** * Supply-chain dashboard: the filter-and-aggregate pipeline

    A shallow embedding of [supply_chain_dash.py].  The script loads a CSV
    file into a pandas DataFrame, cleans five currency columns, filters the
    frame by three sidebar selections and derives the aggregate tables that
    the charts display.

    Conventions of the embedding:
    - a DataFrame is the list of its rows, in index order;
    - a categorical cell is an [option string], [None] being pandas' missing
      value (NaN);
    - a numeric cell is an [option Q], [None] being NaN: every finite
      binary64 value is a rational.  Sums, means and quotients are the exact
      rational ones, of which the program computes the binary64 rounding;
      the theorems below state only what does not depend on that rounding
      (which values are NaN, empty or zero, order, membership, bounds kept
      by rounding), and say so where a result is about the exact value;
    - a Python exception is the [Raise] constructor of [result];
    - the statements of the script that follow the load run on a store of
      names and objects, in which two names can share an object and an
      object can be updated in place; a run ends at the end of the script
      or earlier, at a statement where a Streamlit or plotly call raises;
    - the pandas operations the script calls ([isin], boolean indexing,
      [unique], [sum], [mean], [groupby], [nlargest], [corr], ...) are
      embedded by their documented behaviour, one definition per operation,
      under the name pandas gives it. *)

From Stdlib Require Import List String Ascii Bool Arith ZArith QArith Qreals.
From Stdlib Require Import Reals Lia Lra Permutation Sorted.
Import ListNotations.

Close Scope Q_scope.
Set Implicit Arguments.

(* ================================================================= *)
(** ** Cells, rows, frames *)

Definition cat := option string.
Definition num := option Q.

Definition cat_eqb (a b : cat) : bool :=
  match a, b with
  | Some x, Some y => String.eqb x y
  | None, None => true
  | _, _ => false
  end.

(** One record of the table.  [C] is the type of a currency-bearing cell:
    raw text or number as [read_csv] delivers it, [num] after cleaning. *)
Record RowOf (C : Type) : Type := mkRow {
  Product_Type : cat;
  SKU : cat;
  Price : C;
  Availability : num;
  Number_of_products_sold : num;
  Revenue_generated : C;
  Customer_demographics : cat;
  Stock_levels : num;
  Lead_times : num;
  Order_quantities : num;
  Shipping_times : num;
  Shipping_carriers : cat;
  Shipping_costs : C;
  Supplier_name : cat;
  Location : cat;
  Production_volumes : num;
  Manufacturing_lead_time : num;
  Manufacturing_costs : C;
  Inspection_results : cat;
  Defect_rates : num;
  Transportation_modes : cat;
  Routes : cat;
  Costs : C
}.

(** What [read_csv] leaves in a currency column: text when the field was
    not a plain number, otherwise a float (NaN for an empty field). *)
Inductive raw_cell : Type :=
  | RawStr (s : string)
  | RawFloat (v : num).

Definition RawRow := RowOf raw_cell.
Definition Row := RowOf num.
Definition DataFrame := list Row.

Definition column {A B : Type} (f : A -> B) (df : list A) : list B := map f df.

(* ================================================================= *)
(** ** Exceptions *)

(** [ValueError text] is the [ValueError] that the builtin [float] raises
    on [text]; Python words it "could not convert string to float: "
    followed by [repr(text)].  [Exception name msg] is any other exception. *)
Inductive exn : Type :=
  | ValueError (text : string)
  | Exception (name msg : string).

Inductive result (A : Type) : Type :=
  | Ok (a : A)
  | Raise (e : exn).
Arguments Ok {A} a.
Arguments Raise {A} e.

Definition bind {A B : Type} (m : result A) (k : A -> result B) : result B :=
  match m with
  | Ok a => k a
  | Raise e => Raise e
  end.

Notation "x <- m ;; k" := (bind m (fun x => k))
  (at level 61, m at next level, right associativity).

(** [Series.apply(f)]: [f] on every cell in index order; the first exception
    aborts the call. *)
Fixpoint apply {A B : Type} (f : A -> result B) (s : list A) : result (list B) :=
  match s with
  | [] => Ok []
  | a :: s' => b <- f a ;; bs <- apply f s' ;; Ok (b :: bs)
  end.

(* ================================================================= *)
(** ** load_data *)

(** [str.replace(c, '')] for a one-character [c]. *)
Fixpoint replace_char (c : ascii) (s : string) : string :=
  match s with
  | EmptyString => EmptyString
  | String a s' =>
      if Ascii.eqb a c then replace_char c s' else String a (replace_char c s')
  end.

Definition strip_currency (s : string) : string :=
  replace_char "," (replace_char "$" s).

(** The exception of [float(s)] on a text it does not accept. *)
Definition float_error (s : string) : exn := ValueError s.

Section Load.

(** Python's builtin [float] on a string: [None] when it raises
    [ValueError], [Some v] for the value it returns. *)
Variable float : string -> option num.

(** [pd.read_csv('supply_chain_data.csv')]: the rows of the file, or the
    exception raised when it cannot be read. *)
Variable read_csv : result (list RawRow).

Definition clean_currency (value : raw_cell) : result num :=
  match value with
  | RawStr s =>
      match float (strip_currency s) with
      | Some v => Ok v
      | None => Raise (float_error (strip_currency s))
      end
  | RawFloat v => Ok v
  end.

Definition set_currency (r : RawRow) (p rg sc mc c : num) : Row :=
  {| Product_Type := Product_Type r;
     SKU := SKU r;
     Price := p;
     Availability := Availability r;
     Number_of_products_sold := Number_of_products_sold r;
     Revenue_generated := rg;
     Customer_demographics := Customer_demographics r;
     Stock_levels := Stock_levels r;
     Lead_times := Lead_times r;
     Order_quantities := Order_quantities r;
     Shipping_times := Shipping_times r;
     Shipping_carriers := Shipping_carriers r;
     Shipping_costs := sc;
     Supplier_name := Supplier_name r;
     Location := Location r;
     Production_volumes := Production_volumes r;
     Manufacturing_lead_time := Manufacturing_lead_time r;
     Manufacturing_costs := mc;
     Inspection_results := Inspection_results r;
     Defect_rates := Defect_rates r;
     Transportation_modes := Transportation_modes r;
     Routes := Routes r;
     Costs := c |}.

(** Rows rebuilt from the table and its five cleaned columns. *)
Fixpoint assemble (raw : list RawRow) (p rg sc mc c : list num) : DataFrame :=
  match raw, p, rg, sc, mc, c with
  | r :: raw', x1 :: p', x2 :: rg', x3 :: sc', x4 :: mc', x5 :: c' =>
      set_currency r x1 x2 x3 x4 x5 :: assemble raw' p' rg' sc' mc' c'
  | _, _, _, _, _, _ => []
  end.

(** [load_data]: the loop over [currency_cols] cleans one column after the
    other, in the order Price, Revenue generated, Shipping costs,
    Manufacturing costs, Costs. *)
Definition load_data : result DataFrame :=
  csv <- read_csv ;;
  p  <- apply clean_currency (column (@Price _) csv) ;;
  rg <- apply clean_currency (column (@Revenue_generated _) csv) ;;
  sc <- apply clean_currency (column (@Shipping_costs _) csv) ;;
  mc <- apply clean_currency (column (@Manufacturing_costs _) csv) ;;
  c  <- apply clean_currency (column (@Costs _) csv) ;;
  Ok (assemble csv p rg sc mc c).

End Load.

(** The five cells of a row that [load_data] cleans. *)
Definition currency_cells (r : RawRow) : list raw_cell :=
  [ Price r; Revenue_generated r; Shipping_costs r; Manufacturing_costs r; Costs r ].

(* ================================================================= *)
(** ** Sidebar filters *)

(** [Series.unique()]: the distinct values in order of first appearance;
    a missing value is one of them. *)
Fixpoint unique_acc (seen : list cat) (s : list cat) : list cat :=
  match s with
  | [] => []
  | v :: s' =>
      if existsb (cat_eqb v) seen then unique_acc seen s'
      else v :: unique_acc (v :: seen) s'
  end.

Definition unique (s : list cat) : list cat := unique_acc [] s.

(** The three multiselect widgets' values. *)
Record Selection : Type := mkSelection {
  selected_product_type : list cat;
  selected_location : list cat;
  selected_transport : list cat
}.

(** Every widget starts with [default = options = df[col].unique()]. *)
Definition default_selection (df : DataFrame) : Selection :=
  {| selected_product_type := unique (column (@Product_Type _) df);
     selected_location := unique (column (@Location _) df);
     selected_transport := unique (column (@Transportation_modes _) df) |}.

(** [Series.isin(values)]: element-wise membership; a missing cell is a
    member exactly when [values] holds a missing value. *)
Definition isin (s : list cat) (values : list cat) : list bool :=
  map (fun v => existsb (cat_eqb v) values) s.

(** [a & b] on boolean Series of one index. *)
Definition series_and (a b : list bool) : list bool :=
  map (fun p => fst p && snd p) (combine a b).

(** [df[mask]]: the rows at which the mask is true, in index order. *)
Fixpoint boolean_index {A : Type} (df : list A) (mask : list bool) : list A :=
  match df, mask with
  | r :: df', b :: mask' =>
      if b then r :: boolean_index df' mask' else boolean_index df' mask'
  | _, _ => []
  end.

Definition df_filtered (df : DataFrame) (sel : Selection) : DataFrame :=
  boolean_index df
    (series_and
       (series_and
          (isin (column (@Product_Type _) df) (selected_product_type sel))
          (isin (column (@Location _) df) (selected_location sel)))
       (isin (column (@Transportation_modes _) df) (selected_transport sel))).

(* ================================================================= *)
(** ** Numeric Series *)

Definition notna {A : Type} (v : option A) : bool :=
  match v with Some _ => true | None => false end.

Definition isna {A : Type} (v : option A) : bool := negb (notna v).

Fixpoint dropna {A : Type} (s : list (option A)) : list A :=
  match s with
  | [] => []
  | Some a :: s' => a :: dropna s'
  | None :: s' => dropna s'
  end.

Definition Qsum (l : list Q) : Q := fold_right Qplus 0%Q l.

Definition Qlt_bool (a b : Q) : bool := negb (Qle_bool b a).

Definition Qmax (a b : Q) : Q := if Qle_bool a b then b else a.
Definition Qmin (a b : Q) : Q := if Qle_bool a b then a else b.

(** [Series.sum()]: missing values are skipped; the sum of nothing is 0.
    The exact sum: the program's binary64 sum is this value up to rounding,
    and depends on the order of the additions. *)
Definition series_sum (s : list num) : Q := Qsum (dropna s).

(** [Series.mean()]: missing values are skipped; NaN when nothing is left.
    The exact mean, of which the program computes a binary64 rounding. *)
Definition series_mean (s : list num) : num :=
  match dropna s with
  | [] => None
  | l => Some (Qsum l / inject_Z (Z.of_nat (List.length l)))%Q
  end.

(** [Series.max()] and [Series.min()]: NaN when nothing is left. *)
Definition series_max (s : list num) : num :=
  match dropna s with
  | [] => None
  | x :: l => Some (fold_left Qmax l x)
  end.

Definition series_min (s : list num) : num :=
  match dropna s with
  | [] => None
  | x :: l => Some (fold_left Qmin l x)
  end.

(** [(s == label).sum()]: the number of cells equal to [label]; a missing
    cell equals nothing. *)
Definition count_eq (label : string) (s : list cat) : nat :=
  List.length (filter (fun v => match v with Some x => String.eqb x label | None => false end) s).

(** [count / len(df) * 100] on numpy integers: 0/0 is NaN (with a warning),
    not an exception.  [count <= len], so no other division by zero occurs.
    The exact quotient, of which the program computes a binary64 rounding. *)
Definition rate (count len : nat) : num :=
  if Nat.eqb len 0 then None
  else Some (inject_Z (Z.of_nat count) / inject_Z (Z.of_nat len) * 100)%Q.

(* ================================================================= *)
(** ** Stable sorting *)

Section Sort.

Variable A : Type.
(** [before y x]: [y] sorts strictly in front of [x]. *)
Variable before : A -> A -> bool.

Fixpoint insert (x : A) (l : list A) : list A :=
  match l with
  | [] => [x]
  | y :: l' => if before y x then y :: insert x l' else x :: y :: l'
  end.

(** The stable sort: among elements neither of which sorts in front of
    the other, the earlier one stays first. *)
Definition stable_sort (l : list A) : list A := fold_right insert [] l.

End Sort.

(** [sort_values(by, ascending=False)] on a numeric key: descending, missing
    keys last ([na_position='last']).  Among equal keys the model keeps the
    index order, which is what [nlargest] with [keep='first'] does; the
    default sort of [sort_values] promises no order among equal keys, and
    nothing below relies on one for the charts that call it. *)
Definition desc_before {A : Type} (key : A -> num) (y x : A) : bool :=
  match key y, key x with
  | Some a, Some b => Qlt_bool b a
  | _, _ => false
  end.

Definition sort_values_desc {A : Type} (key : A -> num) (l : list A) : list A :=
  stable_sort (desc_before key) (filter (fun r => notna (key r)) l)
    ++ filter (fun r => isna (key r)) l.

(** [sort_values(by)] on a key that is never missing: ascending (equal keys
    as for [sort_values_desc]). *)
Definition sort_values_asc {A : Type} (key : A -> Q) (l : list A) : list A :=
  stable_sort (fun y x => Qlt_bool (key y) (key x)) l.

(** [DataFrame.nlargest(n, column)] with [keep='first']: the first [n] rows
    of the frame sorted by [column] in descending order. *)
Definition nlargest (n : nat) (col : Row -> num) (df : DataFrame) : DataFrame :=
  firstn n (sort_values_desc col df).

(* ================================================================= *)
(** ** groupby *)

(** A group key: one label per grouping column. *)
Definition gkey := list string.

Definition gkey_dec : forall a b : gkey, {a = b} + {a <> b} :=
  list_eq_dec string_dec.

Fixpoint gkey_ltb (a b : gkey) : bool :=
  match a, b with
  | [], [] => false
  | [], _ :: _ => true
  | _ :: _, [] => false
  | x :: a', y :: b' =>
      if String.ltb x y then true
      else if String.eqb x y then gkey_ltb a' b' else false
  end.

(** Grouping by one or by two columns.  A row with a missing value in a
    grouping column has no key ([dropna=True], the default). *)
Definition by1 (c : Row -> cat) (r : Row) : option gkey :=
  match c r with
  | Some a => Some [a]
  | None => None
  end.

Definition by2 (c1 c2 : Row -> cat) (r : Row) : option gkey :=
  match c1 r, c2 r with
  | Some a, Some b => Some [a; b]
  | _, _ => None
  end.

(** The keys of the groups: the distinct keys observed, sorted
    ([sort=True], the default). *)
Definition group_keys (key : Row -> option gkey) (df : DataFrame) : list gkey :=
  stable_sort gkey_ltb (nodup gkey_dec (dropna (map key df))).

Definition has_key (key : Row -> option gkey) (k : gkey) (r : Row) : bool :=
  match key r with
  | Some k' => if gkey_dec k' k then true else false
  | None => false
  end.

Definition group_rows (key : Row -> option gkey) (k : gkey) (df : DataFrame) : DataFrame :=
  filter (has_key key k) df.

(** [df.groupby(keys).agg(f).reset_index()]: one entry per group. *)
Definition groupby {V : Type} (key : Row -> option gkey) (agg : DataFrame -> V)
    (df : DataFrame) : list (gkey * V) :=
  map (fun k => (k, agg (group_rows key k df))) (group_keys key df).

Definition sum_of (measure : Row -> num) (g : DataFrame) : Q :=
  series_sum (column measure g).

Definition mean_of (measure : Row -> num) (g : DataFrame) : num :=
  series_mean (column measure g).

(** [Series.value_counts().reset_index()]: the distinct non-missing values,
    each with its number of occurrences, most frequent first. *)
Definition value_counts (s : list cat) : list (string * nat) :=
  stable_sort (fun y x => Nat.ltb (snd x) (snd y))
    (map (fun v => (v, count_eq v s)) (dropna (unique s))).

(* ================================================================= *)
(** ** Correlation *)

(** The observations of a pair of columns: the rows where both are present. *)
Fixpoint pairwise (cx cy : Row -> num) (df : DataFrame) : list (Q * Q) :=
  match df with
  | [] => []
  | r :: df' =>
      match cx r, cy r with
      | Some x, Some y => (x, y) :: pairwise cx cy df'
      | _, _ => pairwise cx cy df'
      end
  end.

Definition Qmean (l : list Q) : Q := (Qsum l / inject_Z (Z.of_nat (List.length l)))%Q.

(** Sum of the products of the deviations from the means. *)
Definition codeviation (xs ys : list Q) : Q :=
  Qsum (map (fun p => ((fst p - Qmean xs) * (snd p - Qmean ys))%Q) (combine xs ys)).

(** Pearson's coefficient of one pair of columns, as [DataFrame.corr()]
    computes it with [min_periods=1]: NaN without observations, NaN when the
    divisor [sqrt(ssx * ssy)] is zero, else [cov / sqrt(ssx * ssy)]. *)
Definition pearson (ps : list (Q * Q)) : option R :=
  let xs := map fst ps in
  let ys := map snd ps in
  if Nat.ltb (List.length ps) 1 then None
  else
    let ssx := codeviation xs xs in
    let ssy := codeviation ys ys in
    if Qeq_bool (ssx * ssy) 0 then None
    else Some (Q2R (codeviation xs ys) / sqrt (Q2R (ssx * ssy)))%R.

(** [df[columns].corr()]: the matrix of all pairs of the listed columns. *)
Definition corr (columns : list (Row -> num)) (df : DataFrame) : list (list (option R)) :=
  map (fun cx => map (fun cy => pearson (pairwise cx cy df)) columns) columns.

Definition numeric_cols : list (Row -> num) :=
  [ @Price _; @Availability _; @Number_of_products_sold _; @Revenue_generated _;
    @Stock_levels _; @Lead_times _; @Order_quantities _; @Shipping_times _;
    @Production_volumes _; @Manufacturing_lead_time _; @Defect_rates _ ].

(** The observations of a pair with the columns exchanged, and of a column
    paired with itself. *)
Definition swap (p : Q * Q) : Q * Q := (snd p, fst p).
Definition twice (x : Q) : Q * Q := (x, x).

(** Entry [(i, j)] of a matrix, when it exists. *)
Definition entry {A : Type} (m : list (list A)) (i j : nat) : option A :=
  match nth_error m i with
  | Some row => nth_error row j
  | None => None
  end.

(* ================================================================= *)
(** ** The dashboard *)

(** The radar chart's rescaling of a column of group means to 0..100:
    [(s - s.min()) / (s.max() - s.min()) * 100].  When all values coincide
    the quotient is 0/0, NaN. *)
Definition normalize (s : list num) : list num :=
  map (fun x =>
         match x, series_min s, series_max s with
         | Some v, Some lo, Some hi =>
             if Qeq_bool (hi - lo) 0 then None
             else Some ((v - lo) / (hi - lo) * 100)%Q
         | _, _, _ => None
         end) s.

(** Everything the script derives from the filtered frame. *)
Record Dashboard : Type := mkDashboard {
  (* key performance indicators *)
  total_revenue : Q;
  total_products_sold : Q;
  avg_defect_rate : num;
  avg_lead_time : num;
  total_shipping_cost : Q;
  (* charts *)
  revenue_by_product : list (gkey * Q);
  products_by_location : list (gkey * Q);
  transport_dist : list (string * nat);
  shipping_by_route : list (gkey * Q);
  avg_shipping_time : list (gkey * num);
  production_location : list (gkey * Q);
  inspection_counts : list (string * nat);
  top_products : DataFrame;
  costs_by_transport : list (gkey * (Q * Q));
  cost_data : list (string * Q);
  correlation_matrix : list (list (option R));
  metrics_by_product : list gkey * list (list num);
  supplier_metrics : list (gkey * (Q * num * Q));
  demographics_dist : list (string * nat);
  revenue_demographics : list (gkey * Q);
  (* the data table and the summary statistics *)
  data_table : DataFrame;
  average_revenue : num;
  max_revenue : num;
  pass_rate : num;
  fail_rate : num;
  total_stock : Q
}.

Definition dashboard (view : DataFrame) : Dashboard :=
  {| total_revenue := series_sum (column (@Revenue_generated _) view);
     total_products_sold := series_sum (column (@Number_of_products_sold _) view);
     avg_defect_rate := series_mean (column (@Defect_rates _) view);
     avg_lead_time := series_mean (column (@Lead_times _) view);
     total_shipping_cost := series_sum (column (@Shipping_costs _) view);
     revenue_by_product :=
       groupby (by1 (@Product_Type _)) (sum_of (@Revenue_generated _)) view;
     products_by_location :=
       sort_values_asc snd
         (groupby (by1 (@Location _)) (sum_of (@Number_of_products_sold _)) view);
     transport_dist := value_counts (column (@Transportation_modes _) view);
     shipping_by_route :=
       groupby (by1 (@Routes _)) (sum_of (@Shipping_costs _)) view;
     avg_shipping_time :=
       sort_values_desc snd
         (groupby (by1 (@Shipping_carriers _)) (mean_of (@Shipping_times _)) view);
     production_location :=
       groupby (by2 (@Location _) (@Product_Type _))
         (sum_of (@Production_volumes _)) view;
     inspection_counts := value_counts (column (@Inspection_results _) view);
     top_products := nlargest 10 (@Revenue_generated _) view;
     costs_by_transport :=
       groupby (by2 (@Transportation_modes _) (@Routes _))
         (fun g => (sum_of (@Costs _) g, sum_of (@Shipping_costs _) g)) view;
     cost_data :=
       [ ("Manufacturing"%string, series_sum (column (@Manufacturing_costs _) view));
         ("Shipping"%string, series_sum (column (@Shipping_costs _) view));
         ("Transportation"%string, series_sum (column (@Costs _) view)) ];
     correlation_matrix := corr numeric_cols view;
     metrics_by_product :=
       (group_keys (by1 (@Product_Type _)) view,
        map (fun m => normalize
                        (map snd (groupby (by1 (@Product_Type _)) (mean_of m) view)))
          [ @Price _; @Stock_levels _; @Lead_times _; @Defect_rates _;
            @Shipping_times _ ]);
     supplier_metrics :=
       groupby (by1 (@Supplier_name _))
         (fun g => (sum_of (@Revenue_generated _) g, mean_of (@Defect_rates _) g,
                    sum_of (@Number_of_products_sold _) g)) view;
     demographics_dist := value_counts (column (@Customer_demographics _) view);
     revenue_demographics :=
       groupby (by1 (@Customer_demographics _)) (sum_of (@Revenue_generated _)) view;
     data_table := view;
     average_revenue := series_mean (column (@Revenue_generated _) view);
     max_revenue := series_max (column (@Revenue_generated _) view);
     pass_rate :=
       rate (count_eq "Pass" (column (@Inspection_results _) view)) (List.length view);
     fail_rate :=
       rate (count_eq "Fail" (column (@Inspection_results _) view)) (List.length view);
     total_stock := series_sum (column (@Stock_levels _) view) |}.

(* ================================================================= *)
(** ** The sidebar widgets *)

(** The state of the three multiselect widgets: [None] until the user has
    changed the widget, which then shows its default. *)
Record Widgets : Type := mkWidgets {
  w_product_type : option (list cat);
  w_location : option (list cat);
  w_transport : option (list cat)
}.

Definition multiselect (default : list cat) (state : option (list cat)) : list cat :=
  match state with
  | Some chosen => chosen
  | None => default
  end.

Definition sidebar (df : DataFrame) (w : Widgets) : Selection :=
  {| selected_product_type :=
       multiselect (unique (column (@Product_Type _) df)) (w_product_type w);
     selected_location :=
       multiselect (unique (column (@Location _) df)) (w_location w);
     selected_transport :=
       multiselect (unique (column (@Transportation_modes _) df)) (w_transport w) |}.

(* ================================================================= *)
(** ** Specification vocabulary *)

(** [subseq l1 l2]: [l1] is [l2] with some elements left out, the others in
    their order. *)
Inductive subseq {A : Type} : list A -> list A -> Prop :=
  | subseq_nil : subseq [] []
  | subseq_skip : forall x l1 l2, subseq l1 l2 -> subseq l1 (x :: l2)
  | subseq_keep : forall x l1 l2, subseq l1 l2 -> subseq (x :: l1) (x :: l2).

(** A row passes the filters: each of its three categories is one of the
    selected values. *)
Definition selected (sel : Selection) (r : Row) : Prop :=
  In (Product_Type r) (selected_product_type sel)
  /\ In (Location r) (selected_location sel)
  /\ In (Transportation_modes r) (selected_transport sel).

Definition selectedb (sel : Selection) (r : Row) : bool :=
  existsb (cat_eqb (Product_Type r)) (selected_product_type sel)
  && existsb (cat_eqb (Location r)) (selected_location sel)
  && existsb (cat_eqb (Transportation_modes r)) (selected_transport sel).

Definition cat_dec : forall a b : cat, {a = b} + {a <> b}.
Proof. decide equality. apply string_dec. Defined.

(** Descending order of a numeric key, missing keys last. *)
Definition desc_le {A : Type} (key : A -> num) (a b : A) : Prop :=
  match key a, key b with
  | Some x, Some y => (y <= x)%Q
  | Some _, None => True
  | None, None => True
  | None, Some _ => False
  end.

(** Two rows tie when their keys are equal numbers, or both missing. *)
Definition tieb {A : Type} (key : A -> num) (v : num) (a : A) : bool :=
  match key a, v with
  | Some x, Some y => Qeq_bool x y
  | None, None => true
  | _, _ => false
  end.

(** The three filter columns, to speak of any one of them. *)
Inductive filter_column : Type := ByProductType | ByLocation | ByTransport.

Definition cell_of (c : filter_column) (r : Row) : cat :=
  match c with
  | ByProductType => Product_Type r
  | ByLocation => Location r
  | ByTransport => Transportation_modes r
  end.

Definition chosen (c : filter_column) (sel : Selection) : list cat :=
  match c with
  | ByProductType => selected_product_type sel
  | ByLocation => selected_location sel
  | ByTransport => selected_transport sel
  end.

Definition choose (c : filter_column) (values : list cat) (sel : Selection) : Selection :=
  match c with
  | ByProductType =>
      mkSelection values (selected_location sel) (selected_transport sel)
  | ByLocation =>
      mkSelection (selected_product_type sel) values (selected_transport sel)
  | ByTransport =>
      mkSelection (selected_product_type sel) (selected_location sel) values
  end.




(** An aggregate as the dashboard shows it: a scalar (NaN or a number), a
    table with its number of rows, or the correlation matrix. *)
Inductive aggregate : Type :=
  | Number (v : num)
  | Table (rows : nat)
  | Matrix (m : list (list (option R))).

(** Every aggregate the script computes from the filtered view. *)
Definition aggregates (d : Dashboard) : list aggregate :=
  [ Number (Some (total_revenue d));
    Number (Some (total_products_sold d));
    Number (avg_defect_rate d);
    Number (avg_lead_time d);
    Number (Some (total_shipping_cost d));
    Table (List.length (revenue_by_product d));
    Table (List.length (products_by_location d));
    Table (List.length (transport_dist d));
    Table (List.length (shipping_by_route d));
    Table (List.length (avg_shipping_time d));
    Table (List.length (production_location d));
    Table (List.length (inspection_counts d));
    Table (List.length (top_products d));
    Table (List.length (costs_by_transport d)) ]
  ++ map (fun entry => Number (Some (snd entry))) (cost_data d)
  ++ [ Matrix (correlation_matrix d);
       Table (List.length (fst (metrics_by_product d)));
       Table (List.length (supplier_metrics d));
       Table (List.length (demographics_dist d));
       Table (List.length (revenue_demographics d));
       Number (average_revenue d);
       Number (max_revenue d);
       Number (pass_rate d);
       Number (fail_rate d);
       Number (Some (total_stock d)) ].

(** An aggregate that is empty or NaN. *)
Definition no_data (a : aggregate) : Prop :=
  match a with
  | Number v => v = None
  | Table rows => rows = 0%nat
  | Matrix m => Forall (Forall (fun c => c = None)) m
  end.

(** An aggregate that is empty, NaN or the number 0. *)
Definition no_data_or_zero (a : aggregate) : Prop :=
  match a with
  | Number None => True
  | Number (Some q) => q = 0%Q
  | Table rows => rows = 0%nat
  | Matrix m => Forall (Forall (fun c => c = None)) m
  end.

(** The dashboard of a view without rows. *)
Definition empty_dashboard : Dashboard :=
  {| total_revenue := 0%Q;
     total_products_sold := 0%Q;
     avg_defect_rate := None;
     avg_lead_time := None;
     total_shipping_cost := 0%Q;
     revenue_by_product := [];
     products_by_location := [];
     transport_dist := [];
     shipping_by_route := [];
     avg_shipping_time := [];
     production_location := [];
     inspection_counts := [];
     top_products := [];
     costs_by_transport := [];
     cost_data := [ ("Manufacturing"%string, 0%Q); ("Shipping"%string, 0%Q);
                    ("Transportation"%string, 0%Q) ];
     correlation_matrix := repeat (repeat None 11) 11;
     metrics_by_product := ([], [ []; []; []; []; [] ]);
     supplier_metrics := [];
     demographics_dist := [];
     revenue_demographics := [];
     data_table := [];
     average_revenue := None;
     max_revenue := None;
     pass_rate := None;
     fail_rate := None;
     total_stock := 0%Q |}.

(* ================================================================= *)
(** ** Sample data *)

(** A row with the given categories and revenue, every other cell missing. *)
Definition sample (pt loc tm : cat) (revenue : num) : Row :=
  {| Product_Type := pt; SKU := None; Price := None; Availability := None;
     Number_of_products_sold := None; Revenue_generated := revenue;
     Customer_demographics := None; Stock_levels := None; Lead_times := None;
     Order_quantities := None; Shipping_times := None; Shipping_carriers := None;
     Shipping_costs := None; Supplier_name := None; Location := loc;
     Production_volumes := None; Manufacturing_lead_time := None;
     Manufacturing_costs := None; Inspection_results := None;
     Defect_rates := None; Transportation_modes := tm; Routes := None;
     Costs := None |}.

Definition raw_sample (pt : cat) (price revenue : raw_cell) : RawRow :=
  {| Product_Type := pt; SKU := None; Price := price; Availability := None;
     Number_of_products_sold := None; Revenue_generated := revenue;
     Customer_demographics := None; Stock_levels := None; Lead_times := None;
     Order_quantities := None; Shipping_times := None; Shipping_carriers := None;
     Shipping_costs := RawFloat None; Supplier_name := None; Location := None;
     Production_volumes := None; Manufacturing_lead_time := None;
     Manufacturing_costs := RawFloat None; Inspection_results := None;
     Defect_rates := None; Transportation_modes := None; Routes := None;
     Costs := RawFloat None |}.

Definition row_a1 : Row := sample (Some "A"%string) (Some "Delhi"%string) (Some "Road"%string) (Some 100%Q).
Definition row_a2 : Row := sample (Some "A"%string) (Some "Mumbai"%string) (Some "Air"%string) (Some 50%Q).
Definition row_b : Row := sample (Some "B"%string) (Some "Delhi"%string) (Some "Road"%string) (Some 200%Q).
Definition row_norevenue : Row := sample (Some "A"%string) (Some "Delhi"%string) (Some "Road"%string) None.

(** The three-row table of the specification's scenario. *)
Definition df3 : DataFrame := [row_a1; row_a2; row_b].

Definition no_selection : Selection :=
  {| selected_product_type := []; selected_location := []; selected_transport := [] |}.

Definition csv_clean : list RawRow :=
  [ raw_sample (Some "A"%string) (RawStr "$1,234") (RawFloat (Some 5%Q)) ].

Definition csv_malformed : list RawRow :=
  [ raw_sample (Some "A"%string) (RawStr "$1,234") (RawFloat (Some 5%Q));
    raw_sample (Some "B"%string) (RawFloat None) (RawStr "$12x") ].

Definition untouched : Widgets :=
  {| w_product_type := None; w_location := None; w_transport := None |}.

(** A stand-in for [float] on the examples' texts: unsigned integers parse,
    everything else raises. *)
Fixpoint digits_value (s : string) (acc : Z) : option Z :=
  match s with
  | EmptyString => Some acc
  | String a s' =>
      let n := nat_of_ascii a in
      if (48 <=? n)%nat && (n <=? 57)%nat
      then digits_value s' (10 * acc + Z.of_nat (n - 48))%Z
      else None
  end.

Definition float_of_digits (s : string) : option num :=
  match s with
  | EmptyString => None
  | _ => option_map (fun z => Some (inject_Z z)) (digits_value s 0%Z)
  end.


From Stdlib Require Lqa.
From Stdlib Require PrimFloat.

(* ================================================================= *)
(** ** Further vocabulary *)

(** A raw row and the row [load_data] makes of it: the five currency cells
    cleaned, every other cell as it was. *)
Definition cleaned (float : string -> option num) (r : RawRow) (row : Row) : Prop :=
  exists p rg sc mc c,
    clean_currency float (Price r) = Ok p
    /\ clean_currency float (Revenue_generated r) = Ok rg
    /\ clean_currency float (Shipping_costs r) = Ok sc
    /\ clean_currency float (Manufacturing_costs r) = Ok mc
    /\ clean_currency float (Costs r) = Ok c
    /\ row = set_currency r p rg sc mc c.

(** The characters of a string. *)
Fixpoint chars (s : string) : list ascii :=
  match s with
  | EmptyString => []
  | String a s' => a :: chars s'
  end.

(** A value within the radial axis of the radar chart, or NaN. *)
Definition in_range (v : num) : Prop :=
  match v with
  | Some q => (0 <= q /\ q <= 100)%Q
  | None => True
  end.

(** The order of group keys, as a proposition. *)
Definition gkey_lt (a b : gkey) : Prop := gkey_ltb a b = true.

(** Group keys compared label by label. *)
Fixpoint gkey_compare (a b : gkey) : comparison :=
  match a, b with
  | [], [] => Eq
  | [], _ :: _ => Lt
  | _ :: _, [] => Gt
  | x :: a', y :: b' =>
      match String.compare x y with
      | Eq => gkey_compare a' b'
      | c => c
      end
  end.

(** A row with a price, a revenue and an inspection result. *)
Definition priced (pt : string) (price revenue : Q) (inspection : string) : Row :=
  {| Product_Type := Some pt; SKU := None; Price := Some price; Availability := None;
     Number_of_products_sold := None; Revenue_generated := Some revenue;
     Customer_demographics := None; Stock_levels := None; Lead_times := None;
     Order_quantities := None; Shipping_times := None; Shipping_carriers := None;
     Shipping_costs := None; Supplier_name := None; Location := None;
     Production_volumes := None; Manufacturing_lead_time := None;
     Manufacturing_costs := None; Inspection_results := Some inspection;
     Defect_rates := None; Transportation_modes := None; Routes := None;
     Costs := None |}.

Definition df_priced : DataFrame :=
  [ priced "A" 1 100 "Pass"; priced "B" 2 50 "Fail"; priced "B" 4 200 "Pending" ].

(** What a widget lets through: everything until the user has changed it,
    then the chosen values. *)
Definition lets_through (state : option (list cat)) (v : cat) : bool :=
  match state with
  | None => true
  | Some chosen => existsb (cat_eqb v) chosen
  end.

(** A stand-in for [float] that, like Python's, reads the text [nan] as
    NaN. *)
Definition float_of_digits_or_nan (s : string) : option num :=
  if String.eqb s "nan" then Some None else float_of_digits s.

Definition csv_nan : list RawRow :=
  [ raw_sample (Some "A"%string) (RawStr "$nan") (RawFloat None) ].

(* ================================================================= *)
(** ** The script as statements on a store *)

(** What a variable of the script refers to.  Frames and tables are
    objects that a statement can update in place; figures and layout
    columns are objects whose contents are not modelled. *)
Inductive object : Type :=
  | OFrame (rows : DataFrame)
  | OSelection (values : list cat)
  | ONumber (v : num)
  | OLabel (name : string)
  | ONames (names : list string)
  | OSums (t : list (gkey * Q))
  | OMeans (t : list (gkey * num))
  | OCounts (columns : option (string * string)) (t : list (string * nat))
  | OCosts (t : list (gkey * (Q * Q)))
  | OTotals (t : list (string * Q))
  | OMatrix (m : list (list (option R)))
  | OMetrics (keys : list gkey) (columns : list (list num))
  | OSupplier (t : list (gkey * (Q * num * Q)))
  | OOpaque.

(** Names are bound to addresses, addresses hold objects: two names bound
    to one address share the object. *)
Record store : Type := mkStore {
  env : list (string * nat);
  heap : list object
}.

Fixpoint assoc (x : string) (e : list (string * nat)) : option nat :=
  match e with
  | [] => None
  | (y, a) :: e' => if String.eqb x y then Some a else assoc x e'
  end.

Definition address (s : store) (x : string) : option nat := assoc x (env s).

Definition lookup (s : store) (x : string) : option object :=
  match address s x with
  | Some a => nth_error (heap s) a
  | None => None
  end.

Fixpoint update {A : Type} (a : nat) (f : A -> A) (l : list A) : list A :=
  match l, a with
  | [], _ => []
  | o :: l', O => f o :: l'
  | o :: l', S a' => o :: update a' f l'
  end.

(** [x = <a call that returns a new object>] *)
Definition assign (x : string) (o : object) (s : store) : store :=
  {| env := (x, List.length (heap s)) :: env s; heap := heap s ++ [o] |}.

(** [x = y]: one more name for the object of [y]. *)
Definition alias (x y : string) (s : store) : store :=
  match address s y with
  | Some a => {| env := (x, a) :: env s; heap := heap s |}
  | None => s
  end.

(** [x.attr = ...] and [x[col] = ...]: the object of [x] changes in place,
    for every name bound to it. *)
Definition mutate (x : string) (f : object -> object) (s : store) : store :=
  match address s x with
  | Some a => {| env := env s; heap := update a f (heap s) |}
  | None => s
  end.

Inductive stmt : Type :=
  | Assign (x : string) (e : store -> object)
  | Alias (x y : string)
  | Mutate (x : string) (f : object -> object)
  | Call.

Definition exec_stmt (s : store) (c : stmt) : store :=
  match c with
  | Assign x e => assign x (e s) s
  | Alias x y => alias x y s
  | Mutate x f => mutate x f s
  | Call => s
  end.

Definition exec (p : list stmt) (s : store) : store := fold_left exec_stmt p s.

(** Reading a variable of the expected kind. *)
Definition frame_of (s : store) (x : string) : DataFrame :=
  match lookup s x with Some (OFrame rows) => rows | _ => [] end.

Definition selection_of (s : store) (x : string) : list cat :=
  match lookup s x with Some (OSelection values) => values | _ => [] end.

Definition sums_of (s : store) (x : string) : list (gkey * Q) :=
  match lookup s x with Some (OSums t) => t | _ => [] end.

Definition means_of (s : store) (x : string) : list (gkey * num) :=
  match lookup s x with Some (OMeans t) => t | _ => [] end.

(** [t.columns = [a, b]] on a table of counts. *)
Definition set_columns (a b : string) (o : object) : object :=
  match o with
  | OCounts _ t => OCounts (Some (a, b)) t
  | _ => o
  end.

(** [t = t.sort_values('Count', ascending=False)] on a table of counts
    (equal counts as for [sort_values_desc]). *)
Definition sort_counts (o : object) : object :=
  match o with
  | OCounts c t => OCounts c (stable_sort (fun y x => Nat.ltb (snd x) (snd y)) t)
  | _ => o
  end.

(** [m[col] = (m[col] - m[col].min()) / (m[col].max() - m[col].min()) * 100]
    for the [i]-th of the five measures. *)
Definition normalize_column (i : nat) (o : object) : object :=
  match o with
  | OMetrics keys columns => OMetrics keys (update i normalize columns)
  | _ => o
  end.

(** [m[m['Product Type'] == product]]: the rows of the table with that key. *)
Definition metrics_of_product (product : gkey) (o : object) : object :=
  match o with
  | OMetrics keys columns =>
      let mask := map (fun k => if gkey_dec k product then true else false) keys in
      OMetrics (boolean_index keys mask) (map (fun c => boolean_index c mask) columns)
  | _ => o
  end.

Definition metrics_measures : list (Row -> num) :=
  [ @Price _; @Stock_levels _; @Lead_times _; @Defect_rates _; @Shipping_times _ ].

Definition metrics_names : list string :=
  [ "Price"; "Stock levels"; "Lead times"; "Defect rates"; "Shipping times" ]%string.

Section Body.

Local Open Scope string_scope.

Variable w : Widgets.

(** [figN = px.chart(...)]: a new figure.  [figN.update_traces(...)] and
    [figN.update_layout(...)] change it in place.  [colN] is a layout
    column of [st.columns], [with colN:] enters it.  A call of [st] or of
    plotly that binds no variable is [Call]: it reads its arguments and
    changes no object of the script. *)
Let figure (x : string) : stmt := Assign x (fun _ => OOpaque).
Let restyle (x : string) : stmt := Mutate x (fun o => o).
Let layout (x : string) : stmt := Assign x (fun _ => OOpaque).
Let enter (x : string) : stmt := Call.
Let view (s : store) : DataFrame := frame_of s "df_filtered".

(** Lines 56-84: title, the three filters, the filtered frame. *)
Definition filters : list stmt :=
  [ Call; Call; Call;
    Assign "selected_product_type" (fun s =>
      OSelection (multiselect (unique (column (@Product_Type _) (frame_of s "df")))
                    (w_product_type w)));
    Assign "selected_location" (fun s =>
      OSelection (multiselect (unique (column (@Location _) (frame_of s "df")))
                    (w_location w)));
    Assign "selected_transport" (fun s =>
      OSelection (multiselect (unique (column (@Transportation_modes _) (frame_of s "df")))
                    (w_transport w)));
    Assign "df_filtered" (fun s =>
      OFrame (df_filtered (frame_of s "df")
                (mkSelection (selection_of s "selected_product_type")
                             (selection_of s "selected_location")
                             (selection_of s "selected_transport")))) ].

(** Lines 87-110: the five indicators. *)
Definition indicators : list stmt :=
  [ Call;
    layout "col1"; layout "col2"; layout "col3"; layout "col4"; layout "col5";
    enter "col1";
    Assign "total_revenue" (fun s =>
      ONumber (Some (series_sum (column (@Revenue_generated _) (view s)))));
    Call;
    enter "col2";
    Assign "total_products_sold" (fun s =>
      ONumber (Some (series_sum (column (@Number_of_products_sold _) (view s)))));
    Call;
    enter "col3";
    Assign "avg_defect_rate" (fun s =>
      ONumber (series_mean (column (@Defect_rates _) (view s))));
    Call;
    enter "col4";
    Assign "avg_lead_time" (fun s =>
      ONumber (series_mean (column (@Lead_times _) (view s))));
    Call;
    enter "col5";
    Assign "total_shipping_cost" (fun s =>
      ONumber (Some (series_sum (column (@Shipping_costs _) (view s)))));
    Call;
    Call ].

(** Lines 113-148: revenue and sales. *)
Definition revenue_and_sales : list stmt :=
  [ Call; layout "col1"; layout "col2";
    enter "col1";
    Assign "revenue_by_product" (fun s =>
      OSums (groupby (by1 (@Product_Type _)) (sum_of (@Revenue_generated _)) (view s)));
    figure "fig1"; restyle "fig1"; restyle "fig1"; Call;
    enter "col2";
    Assign "products_by_location" (fun s =>
      OSums (groupby (by1 (@Location _)) (sum_of (@Number_of_products_sold _)) (view s)));
    Assign "products_by_location" (fun s =>
      OSums (sort_values_asc snd (sums_of s "products_by_location")));
    figure "fig2"; restyle "fig2"; restyle "fig2"; Call ].

(** Lines 151-200: transportation and logistics. *)
Definition logistics : list stmt :=
  [ Call; layout "col1"; layout "col2"; layout "col3";
    enter "col1";
    Assign "transport_dist" (fun s =>
      OCounts None (value_counts (column (@Transportation_modes _) (view s))));
    Mutate "transport_dist" (set_columns "Transportation modes" "Count");
    figure "fig3"; restyle "fig3"; restyle "fig3"; Call;
    enter "col2";
    Assign "shipping_by_route" (fun s =>
      OSums (groupby (by1 (@Routes _)) (sum_of (@Shipping_costs _)) (view s)));
    figure "fig4"; restyle "fig4"; restyle "fig4"; Call;
    enter "col3";
    Assign "avg_shipping_time" (fun s =>
      OMeans (groupby (by1 (@Shipping_carriers _)) (mean_of (@Shipping_times _)) (view s)));
    Assign "avg_shipping_time" (fun s =>
      OMeans (sort_values_desc snd (means_of s "avg_shipping_time")));
    figure "fig5"; restyle "fig5"; restyle "fig5"; Call ].

(** Lines 203-237: production and quality. *)
Definition production : list stmt :=
  [ Call; layout "col1"; layout "col2";
    enter "col1";
    Assign "production_location" (fun s =>
      OSums (groupby (by2 (@Location _) (@Product_Type _))
               (sum_of (@Production_volumes _)) (view s)));
    figure "fig6"; restyle "fig6"; restyle "fig6"; Call;
    enter "col2";
    Assign "inspection_counts" (fun s =>
      OCounts None (value_counts (column (@Inspection_results _) (view s))));
    Mutate "inspection_counts" (set_columns "Inspection results" "Count");
    Assign "inspection_counts" (fun s =>
      match lookup s "inspection_counts" with
      | Some o => sort_counts o
      | None => OOpaque
      end);
    figure "fig7"; restyle "fig7"; Call ].

(** Lines 240-336: scatter plots, lead times, stock, the top products. *)
Definition scatter_and_stock : list stmt :=
  [ Call; layout "col1"; layout "col2";
    enter "col1"; figure "fig8"; restyle "fig8"; Call;
    enter "col2"; figure "fig9"; restyle "fig9"; Call;
    Call; layout "col1"; layout "col2";
    enter "col1"; figure "fig10"; restyle "fig10"; Call;
    enter "col2"; figure "fig11"; restyle "fig11"; Call;
    Call; layout "col1"; layout "col2";
    enter "col1"; figure "fig12"; restyle "fig12"; Call;
    enter "col2";
    Assign "top_products" (fun s =>
      OFrame (nlargest 10 (@Revenue_generated _) (view s)));
    figure "fig13"; restyle "fig13"; Call ].

(** Lines 339-404: costs and the correlation matrix. *)
Definition costs_and_correlation : list stmt :=
  [ Call; layout "col1"; layout "col2";
    enter "col1";
    Assign "costs_by_transport" (fun s =>
      OCosts (groupby (by2 (@Transportation_modes _) (@Routes _))
                (fun g => (sum_of (@Costs _) g, sum_of (@Shipping_costs _) g)) (view s)));
    figure "fig14"; restyle "fig14"; Call;
    enter "col2";
    Assign "cost_data" (fun s =>
      OTotals [ ("Manufacturing", series_sum (column (@Manufacturing_costs _) (view s)));
                ("Shipping", series_sum (column (@Shipping_costs _) (view s)));
                ("Transportation", series_sum (column (@Costs _) (view s))) ]);
    figure "fig15"; restyle "fig15"; restyle "fig15"; Call;
    Call;
    Assign "numeric_cols" (fun _ =>
      ONames [ "Price"; "Availability"; "Number of products sold"; "Revenue generated";
               "Stock levels"; "Lead times"; "Order quantities"; "Shipping times";
               "Production volumes"; "Manufacturing lead time"; "Defect rates" ]);
    Assign "correlation_matrix" (fun s => OMatrix (corr numeric_cols (view s)));
    figure "fig16"; restyle "fig16"; Call ].

(** Lines 421-422: one pass of the loop that rescales a measure. *)
Definition rescale (i : nat) : list stmt :=
  [ Assign "col" (fun _ => OLabel (nth i metrics_names ""));
    Mutate "metrics_by_product" (normalize_column i) ].

(** Lines 426-433: one pass of the loop that adds a product's trace. *)
Definition trace (idx : nat) (product : gkey) : list stmt :=
  [ Assign "idx" (fun _ => ONumber (Some (inject_Z (Z.of_nat idx))));
    Assign "product" (fun _ => OLabel (hd "" product));
    Assign "product_data" (fun s =>
      match lookup s "metrics_by_product" with
      | Some o => metrics_of_product product o
      | None => OOpaque
      end);
    restyle "fig17" ].

Fixpoint traces (idx : nat) (products : list gkey) : list stmt :=
  match products with
  | [] => []
  | product :: rest => app (trace idx product) (traces (S idx) rest)
  end.

(** Lines 407-461: the radar chart and the suppliers.  The second loop runs
    once for each product type of the table, [products]. *)
Definition multi_metric (products : list gkey) : list stmt :=
  List.concat
    [ [ Call; layout "col1"; layout "col2";
        enter "col1";
        Assign "metrics_by_product" (fun s =>
          OMetrics (group_keys (by1 (@Product_Type _)) (view s))
            (map (fun m => map snd (groupby (by1 (@Product_Type _)) (mean_of m) (view s)))
               metrics_measures)) ];
      rescale 0; rescale 1; rescale 2; rescale 3; rescale 4;
      [ figure "fig17" ];
      traces 0 products;
      [ restyle "fig17"; Call;
        enter "col2";
        Assign "supplier_metrics" (fun s =>
          OSupplier (groupby (by1 (@Supplier_name _))
                       (fun g => (sum_of (@Revenue_generated _) g,
                                  mean_of (@Defect_rates _) g,
                                  sum_of (@Number_of_products_sold _) g)) (view s)));
        figure "fig18"; restyle "fig18"; Call ] ].

(** Lines 464-539: demographics, the data table, the summary. *)
Definition demographics_and_summary : list stmt :=
  [ Call; layout "col1"; layout "col2";
    enter "col1";
    Assign "demographics_dist" (fun s =>
      OCounts None (value_counts (column (@Customer_demographics _) (view s))));
    Mutate "demographics_dist" (set_columns "Demographics" "Count");
    figure "fig19"; restyle "fig19"; restyle "fig19"; Call;
    enter "col2";
    Assign "revenue_demographics" (fun s =>
      OSums (groupby (by1 (@Customer_demographics _)) (sum_of (@Revenue_generated _)) (view s)));
    figure "fig20"; restyle "fig20"; restyle "fig20"; Call;
    Call; Call;
    Call; layout "col1"; layout "col2"; layout "col3";
    enter "col1"; Call; Call; Call; Call;
    enter "col2"; Call; Call; Call; Call;
    enter "col3"; Call; Call; Call; Call;
    Call; Call ].

(** The statements of the script after [df = load_data()], in order. *)
Definition body (products : list gkey) : list stmt :=
  List.concat
    [ filters; indicators; revenue_and_sales; logistics; production;
      scatter_and_stock; costs_and_correlation; multi_metric products;
      demographics_and_summary ].

End Body.

(** The product types the radar chart loops over: the keys of the table of
    means of the view, which rescaling the measures leaves as they are. *)
Definition radar_products (df : DataFrame) (w : Widgets) : list gkey :=
  group_keys (by1 (@Product_Type _)) (df_filtered df (sidebar df w)).

(** The store right after line 53, [df = load_data()]. *)
Definition after_load (df : DataFrame) : store :=
  assign "df" (OFrame df) (mkStore [] []).

(** How a run ends: at the exception of [load_data], or after some number
    of the statements that follow it, at the end of the script or at an
    exception that a Streamlit or plotly call raises. *)
Inductive run_state : Type :=
  | LoadRaised (e : exn)
  | Reached (s : store).

Section Script.

Variable float : string -> option num.
Variable read_csv : result (list RawRow).

(** [@st.cache_data]: the frame is computed by the first call that
    succeeds and a copy of it is handed out by every later one; an
    exception is not cached. *)
Definition cached_load_data (cache : option DataFrame)
    : result (DataFrame * option DataFrame) :=
  match cache with
  | Some df => Ok (df, cache)
  | None => df <- load_data float read_csv ;; Ok (df, Some df)
  end.

(** One run of the script that executes [n] statements after the load,
    and the cache it leaves. *)
Definition run (w : Widgets) (n : nat) (cache : option DataFrame)
    : run_state * option DataFrame :=
  match cached_load_data cache with
  | Raise e => (LoadRaised e, cache)
  | Ok (df, cache') =>
      (Reached (exec (firstn n (body w (radar_products df w))) (after_load df)), cache')
  end.

(** Streamlit reruns the script on every interaction. *)
Fixpoint session (runs : list (Widgets * nat)) (cache : option DataFrame)
    : list run_state * option DataFrame :=
  match runs with
  | [] => ([], cache)
  | (w, n) :: runs' =>
      let r := run w n cache in
      let rs := session runs' (snd r) in
      (fst r :: fst rs, snd rs)
  end.

End Script.

(** No statement rebinds or updates [x]. *)
Definition leaves (x : string) (c : stmt) : bool :=
  match c with
  | Assign y _ => negb (String.eqb y x)
  | Alias y z => negb (String.eqb y x) && negb (String.eqb z x)
  | Mutate y _ => negb (String.eqb y x)
  | Call => true
  end.

(** A script that shares the frame and then updates the other name. *)
Definition sharing_script : list stmt :=
  [ Alias "df_filtered" "df"; Mutate "df_filtered" (fun _ => OFrame []) ]%string.



Unset Implicit Arguments.

Example df3_revenue_by_product :
  revenue_by_product (dashboard df3) = [(["A"%string], 150%Q); (["B"%string], 200%Q)].
Proof. vm_compute. reflexivity. Qed.

Example df3_filter_by_location :
  df_filtered df3 (mkSelection [Some "A"; Some "B"] [Some "Delhi"] [Some "Road"; Some "Air"])%string
  = [row_a1; row_b].
Proof. reflexivity. Qed.

Example df3_top_two :
  nlargest 2 (@Revenue_generated _) df3 = [row_b; row_a1].
Proof. reflexivity. Qed.

Example clean_currency_dollars :
  clean_currency float_of_digits (RawStr "$1,234") = Ok (Some (inject_Z 1234)).
Proof. reflexivity. Qed.

Example clean_currency_text :
  clean_currency float_of_digits (RawStr "$12x")
  = Raise (ValueError "12x").
Proof. reflexivity. Qed.

(* ================================================================= *)
(** ** Filtering: lemmas *)

Lemma cat_eqb_eq (a b : cat) : cat_eqb a b = true <-> a = b.
Proof.
  destruct a as [x|], b as [y|]; simpl; try (split; congruence).
  rewrite String.eqb_eq. split; congruence.
Qed.

Lemma existsb_cat_In (v : cat) (values : list cat) :
  existsb (cat_eqb v) values = true <-> In v values.
Proof.
  rewrite existsb_exists. split.
  - intros [x [Hx He]]. apply cat_eqb_eq in He. now subst.
  - intros H. exists v. split; [assumption | now apply cat_eqb_eq].
Qed.

Lemma selectedb_spec (sel : Selection) (r : Row) :
  selectedb sel r = true <-> selected sel r.
Proof.
  unfold selectedb, selected.
  rewrite !andb_true_iff, !existsb_cat_In. tauto.
Qed.

(** The mask built from three [isin] Series and two [&] selects the rows
    that [selectedb] accepts. *)
Lemma df_filtered_filter (df : DataFrame) (sel : Selection) :
  df_filtered df sel = filter (selectedb sel) df.
Proof.
  unfold df_filtered, series_and, isin, column.
  induction df as [|r df IH]; simpl.
  - reflexivity.
  - unfold selectedb at 1. rewrite IH.
    destruct (existsb (cat_eqb (Product_Type r)) (selected_product_type sel)
              && existsb (cat_eqb (Location r)) (selected_location sel)
              && existsb (cat_eqb (Transportation_modes r)) (selected_transport sel));
      reflexivity.
Qed.

Lemma subseq_refl {A : Type} (l : list A) : subseq l l.
Proof. induction l; constructor; assumption. Qed.

Lemma subseq_filter_imp {A : Type} (f g : A -> bool) (l : list A) :
  (forall x, In x l -> f x = true -> g x = true) ->
  subseq (filter f l) (filter g l).
Proof.
  induction l as [|a l IH]; intros H; simpl.
  - constructor.
  - assert (IH' : subseq (filter f l) (filter g l))
      by (apply IH; intros x Hx; apply H; now right).
    destruct (f a) eqn:Ef.
    + rewrite (H a (or_introl eq_refl) Ef). now constructor.
    + destruct (g a); [now constructor | assumption].
Qed.

Lemma subseq_filter {A : Type} (f : A -> bool) (l : list A) :
  subseq (filter f l) l.
Proof.
  induction l as [|a l IH]; simpl.
  - constructor.
  - destruct (f a); now constructor.
Qed.

Lemma filter_all {A : Type} (f : A -> bool) (l : list A) :
  (forall x, In x l -> f x = true) -> filter f l = l.
Proof.
  induction l as [|a l IH]; intros H; simpl.
  - reflexivity.
  - rewrite (H a (or_introl eq_refl)). f_equal. apply IH.
    intros x Hx. apply H. now right.
Qed.

Lemma filter_agree {A : Type} (f g : A -> bool) (l : list A) :
  (forall x, In x l -> f x = g x) -> filter f l = filter g l.
Proof.
  induction l as [|a l IH]; intros H; simpl.
  - reflexivity.
  - rewrite (H a (or_introl eq_refl)), IH; [reflexivity|].
    intros x Hx. apply H. now right.
Qed.

Lemma unique_acc_In (s seen : list cat) (v : cat) :
  In v s -> In v seen \/ In v (unique_acc seen s).
Proof.
  revert seen. induction s as [|a s IH]; intros seen H; simpl in *.
  - contradiction.
  - destruct (existsb (cat_eqb a) seen) eqn:E.
    + destruct H as [->|H]; [left; now apply existsb_cat_In | now apply IH].
    + destruct H as [->|H]; [right; now left|].
      destruct (IH (a :: seen) H) as [[->|Hs]|Hu].
      * right. now left.
      * now left.
      * right. now right.
Qed.

(** Every value of a column is among its [unique()] values. *)
Lemma unique_complete (s : list cat) (v : cat) : In v s -> In v (unique s).
Proof.
  intros H. destruct (unique_acc_In s [] v H) as [[]|Hu]. exact Hu.
Qed.

Lemma existsb_remove (v x : cat) (values : list cat) :
  x <> v ->
  existsb (cat_eqb x) (remove cat_dec v values) = existsb (cat_eqb x) values.
Proof.
  intros Hne. induction values as [|a values IH]; simpl.
  - reflexivity.
  - destruct (cat_dec v a) as [<-|Hva]; simpl.
    + rewrite IH. destruct (cat_eqb x v) eqn:E; [|reflexivity].
      apply cat_eqb_eq in E. contradiction.
    + now rewrite IH.
Qed.

Lemma selectedb_chosen_false (c : filter_column) (sel : Selection) (r : Row) :
  existsb (cat_eqb (cell_of c r)) (chosen c sel) = false -> selectedb sel r = false.
Proof.
  unfold selectedb. destruct c; simpl; intros ->;
    rewrite ?andb_false_r, ?andb_false_l; reflexivity.
Qed.

(* ================================================================= *)
(** ** Filtering: the filtered view *)

(** C1.  For every dataset and every triple of selection sets, the filtered
    view is exactly the rows of the dataset, in their original order, whose
    Product Type, Location and Transportation modes are each among the
    selected values.  The view is a new frame computed from the dataset,
    which the expression only reads. *)
Theorem df_filtered_exact (df : DataFrame) (sel : Selection) :
  df_filtered df sel = filter (selectedb sel) df
  /\ subseq (df_filtered df sel) df
  /\ (forall r, In r (df_filtered df sel) <-> In r df /\ selected sel r).
Proof.
  rewrite df_filtered_filter.
  split; [reflexivity|]. split; [apply subseq_filter|].
  intros r. rewrite filter_In, selectedb_spec. tauto.
Qed.

(** C6.  When each of the three selection sets equals the set of values
    observed in its column, filtering returns the whole dataset, rows in
    their original order. *)
Theorem full_domain_identity (df : DataFrame) (sel : Selection) :
  (forall v, In v (selected_product_type sel) <-> In v (column (@Product_Type _) df)) ->
  (forall v, In v (selected_location sel) <-> In v (column (@Location _) df)) ->
  (forall v, In v (selected_transport sel) <-> In v (column (@Transportation_modes _) df)) ->
  df_filtered df sel = df.
Proof.
  intros Hp Hl Ht. rewrite df_filtered_filter. apply filter_all.
  intros r Hr. apply selectedb_spec. unfold selected, column in *.
  repeat split; [apply Hp | apply Hl | apply Ht]; now apply in_map.
Qed.

Lemma full_domain_identity_witness :
  let sel := mkSelection [Some "A"%string; Some "B"%string]
                         [Some "Delhi"%string; Some "Mumbai"%string]
                         [Some "Road"%string; Some "Air"%string] in
  df_filtered df3 sel = df3.
Proof.
  apply full_domain_identity; intros v; simpl; tauto.
Defined.

(** The widgets' defaults are such a selection. *)
Lemma default_selection_identity (df : DataFrame) :
  df_filtered df (default_selection df) = df.
Proof.
  rewrite df_filtered_filter. apply filter_all.
  intros r Hr. unfold selectedb, default_selection; simpl.
  rewrite !andb_true_iff, !existsb_cat_In.
  repeat split; apply unique_complete; unfold column; now apply in_map.
Qed.

(** C8.  A selected value that occurs nowhere in its column matches no row:
    filtering with it gives the same view as filtering with the value
    removed from the set, and a selection of that value alone gives the
    empty view.  The filter is a total function: it returns a view for
    every selection. *)
Theorem stale_value_matches_nothing (c : filter_column) (df : DataFrame)
    (sel : Selection) (v : cat) :
  ~ In v (column (cell_of c) df) ->
  df_filtered df sel = df_filtered df (choose c (remove cat_dec v (chosen c sel)) sel)
  /\ df_filtered df (choose c [v] sel) = [].
Proof.
  intros Hstale. rewrite !df_filtered_filter. split.
  - apply filter_agree. intros r Hr.
    assert (Hne : cell_of c r <> v).
    { intros <-. apply Hstale. unfold column. now apply in_map. }
    unfold selectedb. destruct c, sel; simpl in *;
      now rewrite (existsb_remove _ _ _ Hne).
  - assert (H : forall r, In r df -> selectedb (choose c [v] sel) r = false).
    { intros r Hr. apply (selectedb_chosen_false c).
      assert (Hne : cell_of c r <> v).
      { intros <-. apply Hstale. unfold column. now apply in_map. }
      assert (E : cat_eqb (cell_of c r) v = false).
      { destruct (cat_eqb (cell_of c r) v) eqn:E; [|reflexivity].
        apply cat_eqb_eq in E. contradiction. }
      destruct c; simpl in *; now rewrite E. }
    clear Hstale.
    induction df as [|r df IH]; simpl; [reflexivity|].
    rewrite (H r (or_introl eq_refl)). apply IH.
    intros x Hx. apply H. now right.
Qed.

Lemma stale_value_matches_nothing_witness :
  let sel := mkSelection [Some "A"%string; Some "Z"%string]
                         [Some "Delhi"%string] [Some "Road"%string] in
  df_filtered df3 sel
  = df_filtered df3 (choose ByProductType
                       (remove cat_dec (Some "Z"%string) (chosen ByProductType sel)) sel)
  /\ df_filtered df3 (choose ByProductType [Some "Z"%string] sel) = [].
Proof.
  apply (stale_value_matches_nothing ByProductType).
  simpl. intros [H|[H|[H|[]]]]; discriminate H.
Defined.

(** C10.  Filtering is monotone in the selection sets: a view for smaller
    sets is a subsequence of the view for larger ones. *)
Theorem df_filtered_monotone (df : DataFrame) (s t : Selection) :
  incl (selected_product_type s) (selected_product_type t) ->
  incl (selected_location s) (selected_location t) ->
  incl (selected_transport s) (selected_transport t) ->
  subseq (df_filtered df s) (df_filtered df t).
Proof.
  intros Hp Hl Ht. rewrite !df_filtered_filter.
  apply subseq_filter_imp. intros r _ Hs.
  apply selectedb_spec in Hs. apply selectedb_spec.
  destruct Hs as [H1 [H2 H3]]. repeat split; auto.
Qed.

Lemma df_filtered_monotone_witness :
  subseq
    (df_filtered df3 (mkSelection [Some "A"%string] [Some "Delhi"%string]
                                  [Some "Road"%string]))
    (df_filtered df3 (mkSelection [Some "A"%string; Some "B"%string]
                                  [Some "Delhi"%string]
                                  [Some "Road"%string; Some "Air"%string])).
Proof.
  apply df_filtered_monotone; simpl; intros x [<-|[]]; simpl; tauto.
Defined.

(* ================================================================= *)
(** ** Loading *)

Section LoadFacts.

Variable float : string -> option num.

(** A column either cleans as a whole or stops at an unparsable text. *)
Lemma apply_clean_cases (col : list raw_cell) :
  (exists vs, apply (clean_currency float) col = Ok vs)
  \/ (exists s, In (RawStr s) col
                /\ float (strip_currency s) = None
                /\ apply (clean_currency float) col
                   = Raise (float_error (strip_currency s))).
Proof.
  induction col as [|c col IH]; simpl.
  - left. now exists [].
  - destruct c as [s|v]; simpl.
    + destruct (float (strip_currency s)) as [v|] eqn:E; simpl.
      * destruct IH as [[vs ->]|[s' [Hin [Hs' ->]]]]; simpl.
        -- left. now exists (v :: vs).
        -- right. exists s'. auto.
      * right. exists s. auto.
    + destruct IH as [[vs ->]|[s' [Hin [Hs' ->]]]]; simpl.
      * left. now exists (v :: vs).
      * right. exists s'. auto.
Qed.

Lemma apply_clean_bad (col : list raw_cell) (s : string) :
  In (RawStr s) col -> float (strip_currency s) = None ->
  forall vs, apply (clean_currency float) col <> Ok vs.
Proof.
  induction col as [|c col IH]; intros Hin Hs vs; simpl in *.
  - contradiction.
  - destruct Hin as [->|Hin]; simpl.
    + rewrite Hs. discriminate.
    + destruct (clean_currency float c); simpl; [|discriminate].
      destruct (apply (clean_currency float) col) eqn:E; simpl; [|discriminate].
      exfalso. now apply (IH Hin Hs a0).
Qed.

Lemma column_cell (csv : list RawRow) (f : RawRow -> raw_cell) (s : string) :
  (forall r, In (f r) (currency_cells r)) ->
  In (RawStr s) (column f csv) ->
  exists r, In r csv /\ In (RawStr s) (currency_cells r).
Proof.
  intros Hf Hin. unfold column in Hin. apply in_map_iff in Hin.
  destruct Hin as [r [Hr Hin]]. exists r. split; [assumption|].
  rewrite <- Hr. apply Hf.
Qed.

(** [load_data] raises as soon as one currency cell holds unparsable
    text, and the error names such a text. *)
Lemma load_data_raises (csv : list RawRow) (r : RawRow) (s : string) :
  In r csv -> In (RawStr s) (currency_cells r) ->
  float (strip_currency s) = None ->
  exists r' s',
    In r' csv /\ In (RawStr s') (currency_cells r')
    /\ float (strip_currency s') = None
    /\ load_data float (Ok csv) = Raise (float_error (strip_currency s')).
Proof.
  intros Hr Hcell Hs. unfold load_data. simpl.
  assert (Hbad : forall f, f r = RawStr s ->
            forall vs, apply (clean_currency float) (column f csv) <> Ok vs).
  { intros f Hf. apply (apply_clean_bad _ s); [|assumption].
    rewrite <- Hf. unfold column. now apply in_map. }
  assert (Hstop : forall f, (forall x, In (f x) (currency_cells x)) ->
            forall s', In (RawStr s') (column f csv) ->
            float (strip_currency s') = None ->
            exists r' s'', In r' csv /\ In (RawStr s'') (currency_cells r')
              /\ float (strip_currency s'') = None
              /\ @Raise DataFrame (float_error (strip_currency s'))
                 = Raise (float_error (strip_currency s''))).
  { intros f Hf s' Hin Hs'. destruct (column_cell csv f s' Hf Hin) as [r' [H1 H2]].
    exists r', s'. auto. }
  destruct (apply_clean_cases (column (@Price _) csv))
    as [[v1 E1]|[s' [Hin [Hs' E1]]]]; rewrite E1; simpl;
    [|apply (Hstop (@Price _)); simpl; auto].
  destruct (apply_clean_cases (column (@Revenue_generated _) csv))
    as [[v2 E2]|[s' [Hin [Hs' E2]]]]; rewrite E2; simpl;
    [|apply (Hstop (@Revenue_generated _)); simpl; auto].
  destruct (apply_clean_cases (column (@Shipping_costs _) csv))
    as [[v3 E3]|[s' [Hin [Hs' E3]]]]; rewrite E3; simpl;
    [|apply (Hstop (@Shipping_costs _)); simpl; auto].
  destruct (apply_clean_cases (column (@Manufacturing_costs _) csv))
    as [[v4 E4]|[s' [Hin [Hs' E4]]]]; rewrite E4; simpl;
    [|apply (Hstop (@Manufacturing_costs _)); simpl; auto].
  destruct (apply_clean_cases (column (@Costs _) csv))
    as [[v5 E5]|[s' [Hin [Hs' E5]]]]; rewrite E5; simpl;
    [|apply (Hstop (@Costs _)); simpl; auto 6].
  exfalso. simpl in Hcell.
  destruct Hcell as [H|[H|[H|[H|[H|[]]]]]].
  - now apply (Hbad (@Price _) H v1).
  - now apply (Hbad (@Revenue_generated _) H v2).
  - now apply (Hbad (@Shipping_costs _) H v3).
  - now apply (Hbad (@Manufacturing_costs _) H v4).
  - now apply (Hbad (@Costs _) H v5).
Qed.

End LoadFacts.

(** A run whose load raises executes nothing more and caches nothing. *)
Lemma run_raises (float : string -> option num) (read_csv : result (list RawRow))
    (e : exn) (w : Widgets) (n : nat) :
  load_data float read_csv = Raise e ->
  run float read_csv w n None = (LoadRaised e, None).
Proof.
  intros He. unfold run, cached_load_data. now rewrite He.
Qed.

(** C7 (as amended).  When a currency cell holds text that [float] rejects
    once the dollar signs and commas are removed, [load_data] raises the
    [ValueError] of [float] on such a text of the table and returns no
    frame.  A cell that [read_csv] read as a number or as missing is kept
    as it is, and a text that [float] accepts is replaced by the value
    [float] gives it, NaN included.  An exception of [load_data], this or
    any other, ends the run before a statement after the load is executed
    and leaves the cache empty, so that every rerun ends the same way. *)
Theorem malformed_currency_fails_load (float : string -> option num)
    (read_csv : result (list RawRow)) :
  (forall csv r s,
      read_csv = Ok csv ->
      In r csv -> In (RawStr s) (currency_cells r) ->
      float (strip_currency s) = None ->
      exists r' s',
        In r' csv /\ In (RawStr s') (currency_cells r')
        /\ float (strip_currency s') = None
        /\ load_data float read_csv = Raise (ValueError (strip_currency s')))
  /\ (forall v, clean_currency float (RawFloat v) = Ok v)
  /\ (forall s v, float (strip_currency s) = Some v ->
                  clean_currency float (RawStr s) = Ok v)
  /\ (forall e,
        load_data float read_csv = Raise e ->
        forall runs,
          session float read_csv runs None = (map (fun _ => LoadRaised e) runs, None)).
Proof.
  split; [|split; [|split]].
  - intros csv r s -> Hr Hcell Hs. exact (load_data_raises float csv r s Hr Hcell Hs).
  - reflexivity.
  - intros s v Hs. simpl. now rewrite Hs.
  - intros e He runs. induction runs as [|[w n] runs IH]; [reflexivity|].
    simpl. rewrite (run_raises float read_csv e w n He). simpl.
    rewrite IH. reflexivity.
Qed.

Lemma malformed_currency_fails_load_witness :
  (exists r' s',
      In r' csv_malformed /\ In (RawStr s') (currency_cells r')
      /\ float_of_digits (strip_currency s') = None
      /\ load_data float_of_digits (Ok csv_malformed)
         = Raise (ValueError (strip_currency s')))
  /\ (forall runs,
        session float_of_digits (Ok csv_malformed) runs None
        = (map (fun _ => LoadRaised (ValueError "12x")) runs, None)).
Proof.
  destruct (malformed_currency_fails_load float_of_digits (Ok csv_malformed))
    as [Hload [_ [_ Hfatal]]].
  split.
  - apply (Hload csv_malformed
             (raw_sample (Some "B"%string) (RawFloat None) (RawStr "$12x")) "$12x"%string).
    + reflexivity.
    + simpl. right. left. reflexivity.
    + simpl. right. left. reflexivity.
    + reflexivity.
  - apply Hfatal. reflexivity.
Defined.

(** C7, as stated, fails: the text [$nan] is no number, yet the load
    succeeds and puts NaN in its place, next to the NaN of the fields that
    [read_csv] read as missing. *)
Lemma nan_text_loads_as_nan :
  (exists r, In r csv_nan /\ Price r = RawStr "$nan")
  /\ (exists df,
        load_data float_of_digits_or_nan (Ok csv_nan) = Ok df
        /\ column (@Price _) df = [None]
        /\ column (@Revenue_generated _) df = [None]).
Proof.
  split.
  - eexists. split; [left; reflexivity | reflexivity].
  - eexists. split; [reflexivity|]. split; reflexivity.
Qed.

Example load_clean :
  load_data float_of_digits (Ok csv_clean)
  = Ok [ set_currency (raw_sample (Some "A"%string) (RawStr "$1,234") (RawFloat (Some 5%Q)))
           (Some (inject_Z 1234)) (Some 5%Q) None None None ].
Proof. reflexivity. Qed.

Example load_unreadable :
  load_data float_of_digits (Raise (Exception "FileNotFoundError" "supply_chain_data.csv"))
  = Raise (Exception "FileNotFoundError" "supply_chain_data.csv").
Proof. reflexivity. Qed.

Example load_malformed :
  load_data float_of_digits (Ok csv_malformed)
  = Raise (ValueError "12x").
Proof. reflexivity. Qed.

(* ================================================================= *)
(** ** The store: what a run can change *)














(** When a run gets past the filters, the store holds the view that
    [df_filtered] computes from the frame of [df] and the widgets. *)
Lemma filters_store (df : DataFrame) (w : Widgets) :
  lookup (exec (filters w) (after_load df)) "df_filtered"
  = Some (OFrame (df_filtered df (sidebar df w))).
Proof. reflexivity. Qed.

(** The run on the three-row table, as far as the logistics charts. *)
Example body_revenue_by_product :
  lookup (exec (List.concat [filters untouched; indicators; revenue_and_sales; logistics])
               (after_load df3))
    "revenue_by_product"
  = Some (OSums [(["A"%string], 150%Q); (["B"%string], 200%Q)]).
Proof. lazy. reflexivity. Qed.

(** An in-place update of a table reaches the table and not the dataset. *)
Example body_transport_dist :
  let s := exec (List.concat [filters untouched; indicators; revenue_and_sales; logistics])
                (after_load df3) in
  lookup s "transport_dist"
  = Some (OCounts (Some ("Transportation modes", "Count")) [("Road", 2); ("Air", 1)])%string
  /\ lookup s "df" = Some (OFrame df3).
Proof. lazy. split; reflexivity. Qed.

(** The property is one of this script, not of the store: a script that
    gives the frame a second name and updates it under that name changes
    what [df] refers to. *)
Example sharing_script_mutates :
  forallb (leaves "df") sharing_script = false
  /\ lookup (exec sharing_script (after_load df3)) "df" = Some (OFrame []).
Proof. split; reflexivity. Qed.



(* ================================================================= *)
(** ** Sorting: lemmas *)

Section SortFacts.

Variable A : Type.
Variable before : A -> A -> bool.

Lemma insert_perm (x : A) (l : list A) : Permutation (insert before x l) (x :: l).
Proof.
  induction l as [|y l IH]; simpl.
  - apply Permutation_refl.
  - destruct (before y x).
    + apply Permutation_trans with (y :: x :: l).
      * now apply perm_skip.
      * apply perm_swap.
    + apply Permutation_refl.
Qed.

Lemma stable_sort_perm (l : list A) : Permutation (stable_sort before l) l.
Proof.
  induction l as [|x l IH]; simpl.
  - apply perm_nil.
  - apply Permutation_trans with (x :: stable_sort before l).
    + apply insert_perm.
    + now apply perm_skip.
Qed.

Lemma stable_sort_length (l : list A) :
  List.length (stable_sort before l) = List.length l.
Proof. apply Permutation_length, stable_sort_perm. Qed.

End SortFacts.

(* ================================================================= *)
(** ** Sums over groups *)

Lemma dropna_In {B : Type} (s : list (option B)) (b : B) :
  In b (dropna s) <-> In (Some b) s.
Proof.
  induction s as [|[a|] s IH]; simpl.
  - tauto.
  - rewrite IH. split; intros [H|H]; auto; left; congruence.
  - rewrite IH. split; [auto | intros [H|H]; [discriminate | assumption]].
Qed.

Lemma group_keys_perm (key : Row -> option gkey) (df : DataFrame) :
  Permutation (group_keys key df) (nodup gkey_dec (dropna (map key df))).
Proof. apply stable_sort_perm. Qed.


Section Partition.

Variable key : Row -> option gkey.





End Partition.


(** Binary64 addition rounds, so that a total depends on the order in which
    the addends are taken: the revenues 0.1, 0.2 and 0.3 add up to
    0.6000000000000001 in the order of the rows, and to 0.6 when 0.2 and 0.3
    are added first, as a group. *)
Module Binary64.

Import PrimFloat.
Local Set Warnings "-inexact-float".

Example sum_depends_on_order :
  ((0.1 + 0.2) + 0.3 =? 0.6000000000000001)%float = true
  /\ ((0.2 + 0.3) + 0.1 =? 0.6)%float = true
  /\ ((0.1 + 0.2) + 0.3 =? (0.2 + 0.3) + 0.1)%float = false.
Proof. split; [reflexivity|]. split; reflexivity. Qed.

End Binary64.


(* ================================================================= *)
(** ** The empty view *)

Lemma dashboard_nil : dashboard [] = empty_dashboard.
Proof. vm_compute. reflexivity. Qed.

Lemma df_filtered_no_selection (df : DataFrame) : df_filtered df no_selection = [].
Proof.
  rewrite df_filtered_filter. induction df as [|r df IH]; simpl; auto.
Qed.

(** C2 (as amended).  With all three selection sets empty the filtered
    view has no rows; on it every grouped aggregate, count table and top-N
    table is empty, every mean, maximum and rate and every entry of the
    correlation matrix is NaN, and every column sum is the number 0.  Each
    of these is the value of a total function of the view. *)
Theorem empty_selection_dashboard (df : DataFrame) :
  df_filtered df no_selection = []
  /\ dashboard (df_filtered df no_selection) = empty_dashboard
  /\ Forall no_data_or_zero (aggregates (dashboard (df_filtered df no_selection))).
Proof.
  assert (Hview := df_filtered_no_selection df).
  split; [exact Hview|].
  split; [rewrite Hview; apply dashboard_nil|].
  rewrite Hview, dashboard_nil. simpl.
  repeat (constructor; simpl; try reflexivity).
Qed.

(** C2, as stated, fails: with nothing selected Total Revenue is the number
    0, an aggregate of the empty view that is neither empty nor NaN. *)
Lemma empty_view_sum_is_zero :
  df_filtered df3 no_selection = []
  /\ total_revenue (dashboard (df_filtered df3 no_selection)) = 0%Q
  /\ ~ Forall no_data (aggregates (dashboard (df_filtered df3 no_selection))).
Proof.
  split; [reflexivity|]. split; [reflexivity|].
  intros H. rewrite df_filtered_no_selection, dashboard_nil in H.
  inversion H as [|a l Ha Hl]. simpl in Ha. discriminate Ha.
Qed.

(* ================================================================= *)
(** ** Descending order *)

Lemma Qlt_bool_true (a b : Q) : Qlt_bool a b = true -> (a < b)%Q.
Proof.
  unfold Qlt_bool. rewrite negb_true_iff. intros H.
  apply Qnot_le_lt. intros Hle. apply Qle_bool_iff in Hle. congruence.
Qed.

Lemma Qlt_bool_false (a b : Q) : Qlt_bool a b = false -> (b <= a)%Q.
Proof.
  unfold Qlt_bool. rewrite negb_false_iff. apply Qle_bool_iff.
Qed.

Lemma filter_split_perm {A : Type} (f : A -> bool) (l : list A) :
  Permutation (filter f l ++ filter (fun a => negb (f a)) l) l.
Proof.
  induction l as [|a l IH]; simpl.
  - apply perm_nil.
  - destruct (f a); simpl.
    + now apply perm_skip.
    + apply Permutation_sym, Permutation_cons_app, Permutation_sym, IH.
Qed.

Section Descending.

Variable A : Type.
Variable key : A -> num.

Lemma desc_le_trans (a b c : A) :
  key b <> None -> desc_le key a b -> desc_le key b c -> desc_le key a c.
Proof.
  unfold desc_le. intros Hb.
  destruct (key a), (key b), (key c); try tauto.
  intros H1 H2. now apply Qle_trans with q0.
Qed.

Lemma insert_desc_sorted (x : A) (l : list A) :
  Forall (fun a => key a <> None) (x :: l) ->
  StronglySorted (desc_le key) l ->
  StronglySorted (desc_le key) (insert (desc_before key) x l).
Proof.
  intros Hk Hs. induction Hs as [|y l Hs IH Hy]; simpl.
  - constructor; constructor.
  - inversion Hk as [|? ? Hx Hyl]; subst. inversion Hyl as [|? ? Hky Hl]; subst.
    destruct (desc_before key y x) eqn:E.
    + constructor.
      * apply IH. now constructor.
      * apply (Permutation_Forall (Permutation_sym (insert_perm _ _ x l))).
        constructor; [|assumption].
        unfold desc_before in E. unfold desc_le.
        destruct (key y), (key x); try discriminate.
        apply Qlt_le_weak. now apply Qlt_bool_true.
    + assert (Hxy : desc_le key x y).
      { unfold desc_before in E. unfold desc_le.
        destruct (key y), (key x); try tauto.
        now apply Qlt_bool_false. }
      constructor.
      * now constructor.
      * constructor; [assumption|].
        rewrite Forall_forall in Hy |- *. intros z Hz.
        apply (desc_le_trans x y z Hky Hxy). now apply Hy.
Qed.

Lemma stable_sort_desc_sorted (l : list A) :
  Forall (fun a => key a <> None) l ->
  StronglySorted (desc_le key) (stable_sort (desc_before key) l).
Proof.
  induction l as [|x l IH]; intros Hk; simpl.
  - constructor.
  - inversion Hk; subst. apply insert_desc_sorted.
    + constructor; [assumption|].
      apply (Permutation_Forall (Permutation_sym (stable_sort_perm _ _ l))).
      assumption.
    + now apply IH.
Qed.

(** Inserting keeps every tie class in its order. *)
Lemma insert_desc_filter (v : num) (x : A) (l : list A) :
  filter (tieb key v) (insert (desc_before key) x l) = filter (tieb key v) (x :: l).
Proof.
  induction l as [|y l IH].
  - reflexivity.
  - simpl insert. destruct (desc_before key y x) eqn:E; [|reflexivity].
    change (filter (tieb key v) (y :: insert (desc_before key) x l))
      with (if tieb key v y then y :: filter (tieb key v) (insert (desc_before key) x l)
            else filter (tieb key v) (insert (desc_before key) x l)).
    rewrite IH. simpl.
    destruct (tieb key v x) eqn:Ex; [|reflexivity].
    assert (Ey : tieb key v y = false).
    { unfold desc_before in E. unfold tieb in *.
      destruct (key y) as [ky|], (key x) as [kx|], v as [q|]; try discriminate;
        try reflexivity.
      apply Qlt_bool_true in E. apply Qeq_bool_iff in Ex.
      destruct (Qeq_bool ky q) eqn:Eq; [|reflexivity].
      apply Qeq_bool_iff in Eq. rewrite Ex, Eq in E.
      exfalso. now apply (Qlt_irrefl q). }
    now rewrite Ey.
Qed.

Lemma stable_sort_desc_filter (v : num) (l : list A) :
  filter (tieb key v) (stable_sort (desc_before key) l) = filter (tieb key v) l.
Proof.
  induction l as [|x l IH]; simpl.
  - reflexivity.
  - rewrite insert_desc_filter. simpl. now rewrite IH.
Qed.

Lemma filter_notna_keys (l : list A) :
  Forall (fun a => key a <> None) (filter (fun r => notna (key r)) l).
Proof.
  apply Forall_forall. intros a Ha. apply filter_In in Ha.
  destruct Ha as [_ Ha]. now destruct (key a).
Qed.

Lemma sort_values_desc_perm (l : list A) : Permutation (sort_values_desc key l) l.
Proof.
  unfold sort_values_desc, isna.
  apply Permutation_trans
    with (filter (fun r => notna (key r)) l
            ++ filter (fun r => negb (notna (key r))) l).
  - apply Permutation_app_tail, stable_sort_perm.
  - apply (filter_split_perm (fun r => notna (key r))).
Qed.

Lemma sort_values_desc_sorted (l : list A) :
  StronglySorted (desc_le key) (sort_values_desc key l).
Proof.
  unfold sort_values_desc.
  assert (Hs := stable_sort_desc_sorted _ (filter_notna_keys l)).
  assert (Hk : Forall (fun a => key a <> None)
                 (stable_sort (desc_before key) (filter (fun r => notna (key r)) l))).
  { apply (Permutation_Forall (Permutation_sym (stable_sort_perm _ _ _))).
    apply filter_notna_keys. }
  assert (Hn : Forall (fun a => key a = None) (filter (fun r => isna (key r)) l)).
  { apply Forall_forall. intros a Ha. apply filter_In in Ha.
    destruct Ha as [_ Ha]. unfold isna in Ha. now destruct (key a). }
  induction Hs as [|x s Hs IH Hx]; simpl.
  - induction Hn as [|y t Hy Ht IHt]; constructor; [assumption|].
    apply Forall_forall. intros z Hz. rewrite Forall_forall in Ht.
    unfold desc_le. now rewrite Hy, (Ht z Hz).
  - inversion Hk as [|? ? Hkx Hks]; subst. constructor; [now apply IH|].
    apply Forall_app. split; [assumption|].
    apply Forall_forall. intros z Hz. rewrite Forall_forall in Hn.
    unfold desc_le. rewrite (Hn z Hz). now destruct (key x).
Qed.

Lemma filter_filter_imp (f g : A -> bool) (l : list A) :
  (forall a, f a = true -> g a = true) ->
  filter f (filter g l) = filter f l.
Proof.
  intros H. induction l as [|a l IH]; simpl.
  - reflexivity.
  - destruct (g a) eqn:Eg; simpl.
    + now rewrite IH.
    + destruct (f a) eqn:Ef; [|assumption].
      rewrite (H a Ef) in Eg. discriminate.
Qed.

Lemma filter_filter_none (f g : A -> bool) (l : list A) :
  (forall a, f a = true -> g a = false) ->
  filter f (filter g l) = [].
Proof.
  intros H. induction l as [|a l IH]; simpl.
  - reflexivity.
  - destruct (g a) eqn:Eg; simpl; [|assumption].
    destruct (f a) eqn:Ef; [|assumption].
    rewrite (H a Ef) in Eg. discriminate.
Qed.

(** Sorting keeps every tie class, the missing keys among them, in its
    original order. *)
Lemma sort_values_desc_stable (v : num) (l : list A) :
  filter (tieb key v) (sort_values_desc key l) = filter (tieb key v) l.
Proof.
  unfold sort_values_desc. rewrite filter_app, stable_sort_desc_filter.
  destruct v as [q|].
  - rewrite filter_filter_imp, filter_filter_none.
    + apply app_nil_r.
    + intros a. unfold tieb, isna. now destruct (key a).
    + intros a. unfold tieb. now destruct (key a).
  - rewrite filter_filter_none, filter_filter_imp.
    + reflexivity.
    + intros a. unfold tieb, isna. now destruct (key a).
    + intros a. unfold tieb. now destruct (key a).
Qed.

End Descending.

(* ================================================================= *)
(** ** The top rows *)

Lemma sorted_firstn {A : Type} (R : A -> A -> Prop) (n : nat) (l : list A) :
  StronglySorted R l -> StronglySorted R (firstn n l).
Proof.
  intros Hs. revert n. induction Hs as [|x l Hs IH Hx]; intros [|n]; simpl;
    try constructor.
  - apply IH.
  - rewrite Forall_forall in Hx |- *. intros y Hy.
    apply Hx. rewrite <- (firstn_skipn n l). apply in_or_app. now left.
Qed.

Lemma sorted_firstn_skipn {A : Type} (R : A -> A -> Prop) (n : nat) (l : list A) :
  StronglySorted R l ->
  forall a b, In a (firstn n l) -> In b (skipn n l) -> R a b.
Proof.
  intros Hs. revert n. induction Hs as [|x l Hs IH Hx]; intros [|n] a b Ha Hb;
    simpl in *; try contradiction.
  destruct Ha as [<-|Ha].
  - rewrite Forall_forall in Hx. apply Hx.
    rewrite <- (firstn_skipn n l). apply in_or_app. now right.
  - now apply (IH n).
Qed.

(** C4 (as amended).  For every view, every [n] and every order column the
    top-N rows are at most [n] rows drawn from the view, none twice; they
    are in descending order of the column, rows with a missing value last,
    and no row left out ranks in front of a row returned; rows that tie
    (and likewise the rows with a missing value) come in their original
    order, the earliest first; rows with a missing value are absent when the
    view has at least [n] rows with a value; every row with a value is
    returned when at most [n] rows have one; and a view of at most [n] rows
    is returned whole. *)
Theorem nlargest_spec (n : nat) (col : Row -> num) (view : DataFrame) :
  let top := nlargest n col view in
  List.length top = Nat.min n (List.length view)
  /\ (exists rest,
        Permutation (top ++ rest) view
        /\ forall a b, In a top -> In b rest -> desc_le col a b)
  /\ StronglySorted (desc_le col) top
  /\ (forall v, exists later,
        filter (tieb col v) view = filter (tieb col v) top ++ later)
  /\ (n <= List.length (filter (fun r => notna (col r)) view) ->
      Forall (fun r => col r <> None) top)
  /\ (List.length (filter (fun r => notna (col r)) view) <= n ->
      forall r, In r view -> col r <> None -> In r top)
  /\ (List.length view <= n -> Permutation top view).
Proof.
  unfold nlargest.
  assert (Hperm := sort_values_desc_perm _ col view).
  assert (Hsorted := sort_values_desc_sorted _ col view).
  split; [|split; [|split; [|split; [|split; [|split]]]]].
  - rewrite length_firstn. now rewrite (Permutation_length Hperm).
  - exists (skipn n (sort_values_desc col view)). split.
    + now rewrite firstn_skipn.
    + now apply sorted_firstn_skipn.
  - now apply sorted_firstn.
  - intros v. exists (filter (tieb col v) (skipn n (sort_values_desc col view))).
    rewrite <- filter_app, firstn_skipn. symmetry. apply sort_values_desc_stable.
  - intros Hn. unfold sort_values_desc. rewrite firstn_app.
    rewrite stable_sort_length.
    replace (n - List.length (filter (fun r => notna (col r)) view)) with 0 by lia.
    rewrite firstn_O, app_nil_r.
    apply Forall_forall. intros r Hr.
    assert (Hin : In r (filter (fun r => notna (col r)) view)).
    { apply (Permutation_in r (stable_sort_perm _ (desc_before col) _)).
      rewrite <- (firstn_skipn n (stable_sort _ _)). apply in_or_app. now left. }
    apply filter_In in Hin. destruct Hin as [_ Hin]. now destruct (col r).
  - intros Hn r Hr Hc. unfold sort_values_desc. rewrite firstn_app.
    apply in_or_app. left. rewrite firstn_all2 by (now rewrite stable_sort_length).
    apply (Permutation_in r (Permutation_sym (stable_sort_perm _ (desc_before col) _))).
    apply filter_In. split; [assumption|]. now destruct (col r).
  - intros Hlen. rewrite firstn_all2; [assumption|].
    now rewrite (Permutation_length Hperm).
Qed.

Lemma nlargest_spec_witness :
  let top := nlargest 3 (@Revenue_generated _) df3 in
  List.length top = 3
  /\ StronglySorted (desc_le (@Revenue_generated _)) top
  /\ Forall (fun r => Revenue_generated r <> None) top
  /\ (forall r, In r df3 -> Revenue_generated r <> None -> In r top)
  /\ Permutation top df3.
Proof.
  destruct (nlargest_spec 3 (@Revenue_generated _) df3)
    as [H1 [_ [H3 [_ [H5 [H6 H7]]]]]].
  split; [exact H1|]. split; [exact H3|].
  split; [apply H5; simpl; lia|].
  split; [apply H6; simpl; lia|].
  apply H7; simpl; lia.
Defined.

Example top_two_skips_missing :
  nlargest 2 (@Revenue_generated _) (row_norevenue :: df3) = [row_b; row_a1].
Proof. reflexivity. Qed.

(** C4, as stated, fails: a row whose revenue is missing is among the top
    10 of a view with fewer than 10 rows; it comes last instead of being
    left out. *)
Lemma nlargest_keeps_missing :
  nlargest 10 (@Revenue_generated _) [row_norevenue; row_b] = [row_b; row_norevenue]
  /\ Revenue_generated row_norevenue = None
  /\ ~ Forall (fun r => Revenue_generated r <> None)
         (nlargest 10 (@Revenue_generated _) [row_norevenue; row_b]).
Proof.
  split; [reflexivity|]. split; [reflexivity|].
  intros H. rewrite Forall_forall in H.
  apply (H row_norevenue); [|reflexivity].
  simpl. right. left. reflexivity.
Qed.

(* ================================================================= *)
(** ** Correlation *)

Lemma Qmult_comm_eq (a b : Q) : (a * b)%Q = (b * a)%Q.
Proof.
  unfold Qmult. now rewrite Z.mul_comm, Pos.mul_comm.
Qed.

Lemma pairwise_swap (cx cy : Row -> num) (df : DataFrame) :
  pairwise cy cx df = map swap (pairwise cx cy df).
Proof.
  induction df as [|r df IH]; simpl.
  - reflexivity.
  - destruct (cx r), (cy r); simpl; now rewrite IH.
Qed.

Lemma pairwise_twice (c : Row -> num) (df : DataFrame) :
  pairwise c c df = map twice (dropna (column c df)).
Proof.
  unfold column. induction df as [|r df IH]; simpl.
  - reflexivity.
  - destruct (c r); simpl; now rewrite IH.
Qed.

Lemma combine_fst_snd (ps : list (Q * Q)) : combine (map fst ps) (map snd ps) = ps.
Proof.
  induction ps as [|[x y] ps IH]; simpl; [reflexivity | now rewrite IH].
Qed.

Lemma codeviation_swap (ps : list (Q * Q)) :
  codeviation (map snd ps) (map fst ps) = codeviation (map fst ps) (map snd ps).
Proof.
  unfold codeviation.
  generalize (Qmean (map fst ps)) (Qmean (map snd ps)). intros mx my.
  induction ps as [|[x y] ps IH]; simpl.
  - reflexivity.
  - rewrite IH. f_equal. apply Qmult_comm_eq.
Qed.

Lemma pearson_swap (ps : list (Q * Q)) : pearson (map swap ps) = pearson ps.
Proof.
  unfold pearson. rewrite length_map, !map_map. simpl.
  change (map (fun x => snd x) ps) with (map snd ps).
  change (map (fun x => fst x) ps) with (map fst ps).
  rewrite codeviation_swap.
  rewrite (Qmult_comm_eq (codeviation (map snd ps) (map snd ps))).
  reflexivity.
Qed.

Lemma Qsum_nonneg (l : list Q) : Forall (fun q => 0 <= q)%Q l -> (0 <= Qsum l)%Q.
Proof.
  induction 1 as [|q l Hq Hl IH]; simpl.
  - apply Qle_refl.
  - replace 0%Q with (0 + 0)%Q by reflexivity. now apply Qplus_le_compat.
Qed.

Lemma Qsquare_nonneg (d : Q) : (0 <= d * d)%Q.
Proof.
  destruct (Qlt_le_dec d 0) as [Hneg|Hpos].
  - setoid_replace (d * d)%Q with ((- d) * (- d))%Q by ring.
    apply Qmult_le_0_compat; apply (Qopp_le_compat d 0); now apply Qlt_le_weak.
  - now apply Qmult_le_0_compat.
Qed.

Lemma deviations_nonneg (m : Q) (xs : list Q) :
  Forall (fun q => 0 <= q)%Q
    (map (fun p => ((fst p - m) * (snd p - m))%Q) (combine xs xs)).
Proof.
  induction xs as [|x xs IH]; simpl; constructor.
  - apply Qsquare_nonneg.
  - exact IH.
Qed.

(** The sum of the squared deviations of a column is not negative. *)
Lemma codeviation_self_nonneg (xs : list Q) : (0 <= codeviation xs xs)%Q.
Proof. unfold codeviation. apply Qsum_nonneg, deviations_nonneg. Qed.

(** It is 0 exactly when every value of the column equals the mean: when
    the column is constant. *)
Lemma codeviation_self_zero (xs : list Q) :
  (codeviation xs xs == 0)%Q <-> Forall (fun x => x == Qmean xs)%Q xs.
Proof.
  unfold codeviation. generalize (Qmean xs). intros m.
  induction xs as [|x xs IH]; simpl.
  - split; [constructor | reflexivity].
  - set (rest := Qsum (map (fun p => ((fst p - m) * (snd p - m))%Q) (combine xs xs))) in *.
    assert (Hrest : (0 <= rest)%Q) by apply Qsum_nonneg, deviations_nonneg.
    assert (Hsq := Qsquare_nonneg (x - m)).
    split.
    + intros H.
      assert (H1 : ((x - m) * (x - m) == 0)%Q).
      { apply Qle_antisym; [|assumption].
        rewrite <- H. rewrite <- (Qplus_0_r ((x - m) * (x - m))) at 1.
        now apply Qplus_le_compat; [apply Qle_refl|]. }
      assert (H2 : (rest == 0)%Q).
      { rewrite H1 in H. now rewrite Qplus_0_l in H. }
      constructor; [|now apply IH].
      apply Qmult_integral in H1.
      assert (Hd : (x - m == 0)%Q) by tauto.
      setoid_replace x with ((x - m) + m)%Q by ring.
      rewrite Hd. ring.
    + intros H. inversion H as [|? ? Hx Hxs]; subst.
      apply IH in Hxs. rewrite Hxs, Hx. ring.
Qed.

(** A column against itself: 1 unless the squared deviations sum to 0. *)
Lemma pearson_twice (xs : list Q) :
  pearson (map twice xs)
  = if Qeq_bool (codeviation xs xs) 0 then None else Some 1%R.
Proof.
  unfold pearson. rewrite length_map, !map_map. simpl.
  rewrite map_id.
  destruct xs as [|x xs']; [reflexivity|].
  set (xs := x :: xs'). change (Nat.ltb (List.length xs) 1) with false. cbv iota.
  set (s := codeviation xs xs).
  assert (Hs : (0 <= s)%Q) by apply codeviation_self_nonneg.
  destruct (Qeq_bool s 0) eqn:E.
  - apply Qeq_bool_iff in E.
    assert (E2 : Qeq_bool (s * s) 0 = true).
    { apply Qeq_bool_iff. rewrite E. reflexivity. }
    now rewrite E2.
  - assert (Hne : ~ (s == 0)%Q).
    { intros H. apply Qeq_bool_iff in H. congruence. }
    assert (E2 : Qeq_bool (s * s) 0 = false).
    { destruct (Qeq_bool (s * s) 0) eqn:E2; [|reflexivity].
      apply Qeq_bool_iff in E2. apply Qmult_integral in E2. tauto. }
    rewrite E2. f_equal.
    assert (Hr : (0 <= Q2R s)%R).
    { replace 0%R with (Q2R 0) by apply RMicromega.Q2R_0. now apply Qle_Rle. }
    assert (Hr0 : Q2R s <> 0%R).
    { intros H. apply Hne. apply eqR_Qeq. now rewrite RMicromega.Q2R_0. }
    rewrite Q2R_mult, sqrt_square by assumption.
    now field.
Qed.

(** Without a second observation there is no deviation: NaN. *)
Lemma pearson_short (ps : list (Q * Q)) :
  List.length ps < 2 -> pearson ps = None.
Proof.
  destruct ps as [|[x y] [|p ps]]; simpl; intros H; try lia.
  - reflexivity.
  - unfold pearson. simpl.
    assert (E : Qeq_bool (codeviation [x] [x] * codeviation [y] [y]) 0 = true).
    { apply Qeq_bool_iff. unfold codeviation, Qmean. simpl. field. }
    now rewrite E.
Qed.

Lemma entry_corr (columns : list (Row -> num)) (df : DataFrame) (i j : nat) :
  entry (corr columns df) i j
  = match nth_error columns i, nth_error columns j with
    | Some cx, Some cy => Some (pearson (pairwise cx cy df))
    | _, _ => None
    end.
Proof.
  unfold entry, corr. rewrite nth_error_map.
  destruct (nth_error columns i) as [cx|]; simpl.
  - rewrite nth_error_map. now destruct (nth_error columns j).
  - now destruct (nth_error columns j).
Qed.

(** C3 (as amended).  For every view the correlation matrix is symmetric;
    the diagonal entry of a column is exactly 1 when the squared deviations
    of its values from their mean do not sum to 0, and NaN otherwise; and an
    entry for which fewer than two rows have both values is NaN, a value of
    the matrix and not an exception. *)
Theorem corr_spec (columns : list (Row -> num)) (view : DataFrame) :
  (forall i j, entry (corr columns view) i j = entry (corr columns view) j i)
  /\ (forall i,
        entry (corr columns view) i i
        = option_map
            (fun c => let xs := dropna (column c view) in
                      if Qeq_bool (codeviation xs xs) 0 then None else Some 1%R)
            (nth_error columns i))
  /\ (forall i j cx cy,
        nth_error columns i = Some cx -> nth_error columns j = Some cy ->
        List.length (pairwise cx cy view) < 2 ->
        entry (corr columns view) i j = Some None).
Proof.
  split; [|split].
  - intros i j. rewrite !entry_corr.
    destruct (nth_error columns i) as [cx|], (nth_error columns j) as [cy|];
      try reflexivity.
    now rewrite (pairwise_swap cx cy), pearson_swap.
  - intros i. rewrite entry_corr.
    destruct (nth_error columns i) as [c|]; simpl; [|reflexivity].
    now rewrite pairwise_twice, pearson_twice.
  - intros i j cx cy Hi Hj Hlen. rewrite entry_corr, Hi, Hj.
    now rewrite pearson_short.
Qed.

Lemma corr_spec_witness :
  entry (corr numeric_cols df3) 3 0 = entry (corr numeric_cols df3) 0 3
  /\ entry (corr numeric_cols df3) 3 3 = Some (Some 1%R)
  /\ entry (corr numeric_cols df3) 3 0 = Some None.
Proof.
  destruct (corr_spec numeric_cols df3) as [H1 [H2 H3]].
  split; [apply H1|]. split.
  - rewrite H2. reflexivity.
  - apply (H3 3 0 (@Revenue_generated _) (@Price _)); [reflexivity | reflexivity |].
    simpl. lia.
Defined.

(** C3, as stated, fails: in a view of one row the diagonal entry of a
    column that has a value is NaN, not 1. *)
Lemma corr_diagonal_nan :
  [row_a1] <> []
  /\ Revenue_generated row_a1 = Some 100%Q
  /\ entry (corr numeric_cols [row_a1]) 3 3 = Some None
  /\ entry (corr numeric_cols [row_a1]) 3 3 <> Some (Some 1%R).
Proof.
  assert (H : entry (corr numeric_cols [row_a1]) 3 3 = Some None)
    by (vm_compute; reflexivity).
  split; [discriminate|]. split; [reflexivity|]. split; [exact H|].
  rewrite H. discriminate.
Qed.

(* ================================================================= *)
(** ** Loading: the cleaned table *)

Lemma apply_Forall2 {A B : Type} (f : A -> result B) (s : list A) (vs : list B) :
  apply f s = Ok vs <-> Forall2 (fun a b => f a = Ok b) s vs.
Proof.
  revert vs. induction s as [|a s IH]; intros vs; simpl.
  - split.
    + intros H. injection H as <-. constructor.
    + intros H. inversion H. reflexivity.
  - split.
    + destruct (f a) as [b|e] eqn:Ea; simpl; [|discriminate].
      destruct (apply f s) as [bs|e] eqn:Es; simpl; [|discriminate].
      intros H. injection H as <-. constructor; [assumption|]. now apply IH.
    + intros H. inversion H as [|? b ? bs Hb Hbs]; subst.
      rewrite Hb. simpl. apply IH in Hbs. now rewrite Hbs.
Qed.

Lemma assemble_cleaned (float : string -> option num) (csv : list RawRow) :
  forall p rg sc mc c,
    Forall2 (fun a b => clean_currency float a = Ok b) (column (@Price _) csv) p ->
    Forall2 (fun a b => clean_currency float a = Ok b) (column (@Revenue_generated _) csv) rg ->
    Forall2 (fun a b => clean_currency float a = Ok b) (column (@Shipping_costs _) csv) sc ->
    Forall2 (fun a b => clean_currency float a = Ok b) (column (@Manufacturing_costs _) csv) mc ->
    Forall2 (fun a b => clean_currency float a = Ok b) (column (@Costs _) csv) c ->
    Forall2 (cleaned float) csv (assemble csv p rg sc mc c).
Proof.
  unfold column. induction csv as [|r csv IH]; intros p rg sc mc c H1 H2 H3 H4 H5; simpl in *.
  - constructor.
  - inversion H1; subst. inversion H2; subst. inversion H3; subst.
    inversion H4; subst. inversion H5; subst. simpl.
    constructor.
    + unfold cleaned. do 5 eexists. repeat (split; [eassumption|]). reflexivity.
    + now apply IH.
Qed.

Lemma apply_total {A B : Type} (f : A -> result B) (s : list A) :
  Forall (fun a => exists b, f a = Ok b) s -> exists vs, apply f s = Ok vs.
Proof.
  induction 1 as [|a s [b Hb] Hs [vs IH]]; simpl.
  - now exists [].
  - exists (b :: vs). now rewrite Hb, IH.
Qed.

(** X1.  [load_data] succeeds exactly when every currency cell of the table
    cleans; the frame it returns has one row per row of the table, in the
    same order, each with its five currency cells cleaned and every other
    cell untouched. *)
Theorem load_data_cleans (float : string -> option num) (csv : list RawRow) :
  (forall df, load_data float (Ok csv) = Ok df -> Forall2 (cleaned float) csv df)
  /\ ((exists df, load_data float (Ok csv) = Ok df)
      <-> Forall (fun r => Forall (fun cell => exists v, clean_currency float cell = Ok v)
                             (currency_cells r)) csv).
Proof.
  assert (Hfwd : forall df, load_data float (Ok csv) = Ok df ->
                            Forall2 (cleaned float) csv df).
  { intros df. unfold load_data. simpl.
    destruct (apply (clean_currency float) (column (@Price _) csv)) as [p|] eqn:E1;
      simpl; [|discriminate].
    destruct (apply (clean_currency float) (column (@Revenue_generated _) csv)) as [rg|] eqn:E2;
      simpl; [|discriminate].
    destruct (apply (clean_currency float) (column (@Shipping_costs _) csv)) as [sc|] eqn:E3;
      simpl; [|discriminate].
    destruct (apply (clean_currency float) (column (@Manufacturing_costs _) csv)) as [mc|] eqn:E4;
      simpl; [|discriminate].
    destruct (apply (clean_currency float) (column (@Costs _) csv)) as [c|] eqn:E5;
      simpl; [|discriminate].
    intros H. injection H as <-.
    apply assemble_cleaned; now apply apply_Forall2. }
  split; [exact Hfwd|]. split.
  - intros [df Hdf]. apply Hfwd in Hdf. clear Hfwd.
    induction Hdf as [|r row csv' df' Hc _ IH]; constructor; [|exact IH].
    destruct Hc as (p & rg & sc & mc & c & H1 & H2 & H3 & H4 & H5 & _).
    unfold currency_cells. repeat constructor; eexists; eassumption.
  - intros Hall.
    assert (Hcol : forall f : RawRow -> raw_cell,
               (forall r, In (f r) (currency_cells r)) ->
               exists vs, apply (clean_currency float) (column f csv) = Ok vs).
    { intros f Hf. apply apply_total. unfold column. apply Forall_forall.
      intros cell Hcell. apply in_map_iff in Hcell. destruct Hcell as [r [<- Hr]].
      rewrite Forall_forall in Hall. specialize (Hall r Hr).
      rewrite Forall_forall in Hall. apply Hall, Hf. }
    destruct (Hcol (@Price _)) as [p E1]; [simpl; auto|].
    destruct (Hcol (@Revenue_generated _)) as [rg E2]; [simpl; auto|].
    destruct (Hcol (@Shipping_costs _)) as [sc E3]; [simpl; auto|].
    destruct (Hcol (@Manufacturing_costs _)) as [mc E4]; [simpl; auto|].
    destruct (Hcol (@Costs _)) as [c E5]; [simpl; auto 6|].
    exists (assemble csv p rg sc mc c).
    unfold load_data, column, RawRow in *. simpl.
    rewrite E1; simpl. rewrite E2; simpl. rewrite E3; simpl.
    rewrite E4; simpl. rewrite E5; simpl. reflexivity.
Qed.

Lemma load_data_cleans_witness :
  exists df,
    load_data float_of_digits (Ok csv_clean) = Ok df
    /\ Forall2 (cleaned float_of_digits) csv_clean df.
Proof.
  eexists. split.
  - reflexivity.
  - apply (proj1 (load_data_cleans float_of_digits csv_clean)). reflexivity.
Defined.

(* ================================================================= *)
(** ** Currency text *)

Lemma chars_replace_char (c : ascii) (s : string) :
  chars (replace_char c s) = filter (fun a => negb (Ascii.eqb a c)) (chars s).
Proof.
  induction s as [|a s IH]; simpl.
  - reflexivity.
  - destruct (Ascii.eqb a c); simpl; now rewrite IH.
Qed.

Lemma chars_inj (s t : string) : chars s = chars t -> s = t.
Proof.
  revert t. induction s as [|a s IH]; intros [|b t] H; simpl in H;
    try discriminate; [reflexivity|].
  injection H as -> H. f_equal. now apply IH.
Qed.

Lemma chars_strip_currency (s : string) :
  chars (strip_currency s)
  = filter (fun a => negb (Ascii.eqb a "$") && negb (Ascii.eqb a ","))%char (chars s).
Proof.
  unfold strip_currency. rewrite !chars_replace_char.
  induction (chars s) as [|a l IH]; simpl.
  - reflexivity.
  - destruct (Ascii.eqb a "$"); simpl; [assumption|].
    destruct (Ascii.eqb a ","); simpl; now rewrite IH.
Qed.

(** X2.  What [clean_currency] passes to [float] is the text with every
    [$] and every [,] taken out, wherever they stand, and nothing else
    changed: no such character is left, a text without them is passed as it
    is, and two texts that differ only in these characters clean to the same
    result. *)
Theorem clean_currency_ignores_symbols (float : string -> option num) (s t : string) :
  chars (strip_currency s)
  = filter (fun a => negb (Ascii.eqb a "$") && negb (Ascii.eqb a ","))%char (chars s)
  /\ strip_currency (strip_currency s) = strip_currency s
  /\ (strip_currency s = strip_currency t ->
      clean_currency float (RawStr s) = clean_currency float (RawStr t)).
Proof.
  split; [apply chars_strip_currency|]. split.
  - apply chars_inj. rewrite (chars_strip_currency (strip_currency s)).
    rewrite chars_strip_currency.
    induction (chars s) as [|a l IH]; simpl; [reflexivity|].
    destruct (negb (Ascii.eqb a "$") && negb (Ascii.eqb a ","))%char eqn:E; simpl.
    + rewrite E. now rewrite IH.
    + exact IH.
  - intros H. simpl. now rewrite H.
Qed.

Lemma clean_currency_ignores_symbols_witness :
  strip_currency "$1,234" = strip_currency "1$23,4"
  /\ clean_currency float_of_digits (RawStr "$1,234")
     = clean_currency float_of_digits (RawStr "1$23,4").
Proof.
  split; [reflexivity|].
  apply (clean_currency_ignores_symbols float_of_digits "$1,234" "1$23,4").
  reflexivity.
Defined.

(* ================================================================= *)
(** ** The options of the sidebar *)

Lemma unique_acc_sound (s seen : list cat) (v : cat) :
  In v (unique_acc seen s) -> In v s /\ ~ In v seen.
Proof.
  revert seen. induction s as [|a s IH]; intros seen H; simpl in *.
  - contradiction.
  - destruct (existsb (cat_eqb a) seen) eqn:E.
    + destruct (IH seen H) as [H1 H2]. auto.
    + destruct H as [->|H].
      * split; [now left|]. intros Hin. apply existsb_cat_In in Hin. congruence.
      * destruct (IH (a :: seen) H) as [H1 H2]. split; [now right|].
        intros Hin. apply H2. now right.
Qed.

Lemma unique_acc_NoDup (s seen : list cat) : NoDup (unique_acc seen s).
Proof.
  revert seen. induction s as [|a s IH]; intros seen; simpl.
  - constructor.
  - destruct (existsb (cat_eqb a) seen); [apply IH|].
    constructor; [|apply IH].
    intros Hin. apply unique_acc_sound in Hin. destruct Hin as [_ Hin].
    apply Hin. now left.
Qed.

Lemma unique_acc_snoc (s seen : list cat) (v : cat) :
  unique_acc seen (s ++ [v])
  = unique_acc seen s
    ++ (if existsb (cat_eqb v) seen || existsb (cat_eqb v) s then [] else [v]).
Proof.
  revert seen. induction s as [|a s IH]; intros seen; simpl.
  - rewrite orb_false_r. now destruct (existsb (cat_eqb v) seen).
  - destruct (existsb (cat_eqb a) seen) eqn:E.
    + rewrite IH. f_equal.
      destruct (cat_eqb v a) eqn:Eva; simpl; [|reflexivity].
      apply cat_eqb_eq in Eva. subst a. now rewrite E.
    + simpl. rewrite IH. simpl. f_equal.
      now rewrite orb_assoc, (orb_comm (cat_eqb v a)), <- orb_assoc.
Qed.

(** X3.  The options of a multiselect, [df[col].unique()], hold every value
    observed in the column and nothing else, each once, in the order of
    first appearance: a further cell adds its value at the end when the
    value is new and changes nothing otherwise. *)
Theorem unique_options (s : list cat) :
  NoDup (unique s)
  /\ (forall v, In v (unique s) <-> In v s)
  /\ (forall v, unique (s ++ [v])
                = unique s ++ (if existsb (cat_eqb v) s then [] else [v])).
Proof.
  split; [apply unique_acc_NoDup|]. split.
  - intros v. split.
    + intros H. now apply unique_acc_sound in H.
    + apply unique_complete.
  - intros v. unfold unique. now rewrite unique_acc_snoc.
Qed.

(* ================================================================= *)
(** ** Narrowing a selection *)

Lemma filter_filter_and {A : Type} (f g : A -> bool) (l : list A) :
  filter f (filter g l) = filter (fun a => g a && f a) l.
Proof.
  induction l as [|a l IH]; simpl; [reflexivity|].
  destruct (g a); simpl; [destruct (f a)|]; now rewrite IH.
Qed.

(** X4.  Filtering composes: filtering a view again is filtering the dataset
    by both selections, in either order; and narrowing a selection gives the
    view that filtering the current view by the narrower selection gives. *)
Theorem df_filtered_narrow (df : DataFrame) (s t : Selection) :
  df_filtered (df_filtered df s) t = df_filtered (df_filtered df t) s
  /\ (incl (selected_product_type t) (selected_product_type s) ->
      incl (selected_location t) (selected_location s) ->
      incl (selected_transport t) (selected_transport s) ->
      df_filtered (df_filtered df s) t = df_filtered df t).
Proof.
  rewrite !df_filtered_filter, !filter_filter_and. split.
  - apply filter_agree. intros r _. apply andb_comm.
  - intros Hp Hl Ht. apply filter_agree. intros r _.
    destruct (selectedb t r) eqn:E; [|apply andb_false_r].
    rewrite andb_true_r. apply selectedb_spec in E. apply selectedb_spec.
    destruct E as [H1 [H2 H3]]. repeat split; auto.
Qed.

Lemma df_filtered_narrow_witness :
  let s := mkSelection [Some "A"%string; Some "B"%string] [Some "Delhi"%string]
                       [Some "Road"%string; Some "Air"%string] in
  let t := mkSelection [Some "B"%string] [Some "Delhi"%string] [Some "Road"%string] in
  df_filtered (df_filtered df3 s) t = df_filtered df3 t.
Proof.
  apply (df_filtered_narrow df3); simpl; intros x [<-|[]]; simpl; tauto.
Defined.

(* ================================================================= *)
(** ** Sorting: order *)

Section SortedFacts.

Variable A : Type.
Variable before : A -> A -> bool.

(** [a] may stand in front of [b]: [b] does not sort strictly before [a]. *)
Let le (a b : A) : Prop := before b a = false.

Hypothesis before_asym : forall a b, before a b = true -> before b a = false.
Hypothesis le_trans : forall a b c, le a b -> le b c -> le a c.

Lemma insert_sorted (x : A) (l : list A) :
  StronglySorted le l -> StronglySorted le (insert before x l).
Proof.
  intros Hs. induction Hs as [|y l Hs IH Hy]; simpl.
  - constructor; constructor.
  - destruct (before y x) eqn:E.
    + constructor; [exact IH|].
      apply (Permutation_Forall (Permutation_sym (insert_perm _ before x l))).
      constructor; [|assumption]. now apply before_asym.
    + constructor; [now constructor|].
      constructor; [exact E|].
      rewrite Forall_forall in Hy |- *. intros z Hz.
      apply (le_trans x y z E). now apply Hy.
Qed.

Lemma stable_sort_sorted (l : list A) : StronglySorted le (stable_sort before l).
Proof.
  induction l as [|x l IH]; simpl.
  - constructor.
  - now apply insert_sorted.
Qed.

(** Sorting a sorted list changes nothing. *)
Lemma stable_sort_of_sorted (l : list A) :
  StronglySorted le l -> stable_sort before l = l.
Proof.
  induction 1 as [|x l Hs IH Hx]; simpl.
  - reflexivity.
  - rewrite IH. destruct l as [|y l]; simpl; [reflexivity|].
    inversion Hx as [|? ? Hxy _]; subst. unfold le in Hxy. now rewrite Hxy.
Qed.

Lemma stable_sort_idempotent (l : list A) :
  stable_sort before (stable_sort before l) = stable_sort before l.
Proof. apply stable_sort_of_sorted, stable_sort_sorted. Qed.

End SortedFacts.

(* ================================================================= *)
(** ** Counting values *)

Lemma count_eq_cons (label : string) (a : cat) (s : list cat) :
  count_eq label (a :: s)
  = (if cat_eqb a (Some label) then 1 else 0) + count_eq label s.
Proof.
  unfold count_eq. simpl. destruct a as [x|]; simpl; [|reflexivity].
  now destruct (String.eqb x label).
Qed.

Lemma count_eq_pos (label : string) (s : list cat) :
  In (Some label) s -> 1 <= count_eq label s.
Proof.
  induction s as [|a s IH]; intros H; [contradiction|].
  rewrite count_eq_cons. destruct H as [->|H].
  - simpl. rewrite String.eqb_refl. lia.
  - specialize (IH H). lia.
Qed.

Lemma counts_cons_other (vs : list string) (a : cat) (s : list cat) :
  (forall v, In v vs -> a <> Some v) ->
  list_sum (map (fun v => count_eq v (a :: s)) vs)
  = list_sum (map (fun v => count_eq v s) vs).
Proof.
  induction vs as [|v vs IH]; intros H; simpl; [reflexivity|].
  rewrite count_eq_cons, IH by (intros w Hw; apply H; now right).
  destruct (cat_eqb a (Some v)) eqn:E; [|reflexivity].
  apply cat_eqb_eq in E. exfalso. apply (H v); [now left | assumption].
Qed.

Lemma counts_cons_member (vs : list string) (x : string) (s : list cat) :
  NoDup vs -> In x vs ->
  list_sum (map (fun v => count_eq v (Some x :: s)) vs)
  = S (list_sum (map (fun v => count_eq v s) vs)).
Proof.
  intros Hnd Hin. induction Hnd as [|v vs Hv Hnd IH]; [contradiction|].
  simpl. rewrite count_eq_cons. destruct Hin as [->|Hin].
  - simpl. rewrite String.eqb_refl. rewrite counts_cons_other; [reflexivity|].
    intros w Hw Heq. injection Heq as ->. contradiction.
  - rewrite (IH Hin). destruct (cat_eqb (Some x) (Some v)) eqn:E; [|lia].
    apply cat_eqb_eq in E. injection E as ->. contradiction.
Qed.

(** Over distinct labels that cover the column, the counts add up to the
    number of cells that hold a value. *)
Lemma counts_total (vs : list string) (s : list cat) :
  NoDup vs -> (forall x, In (Some x) s -> In x vs) ->
  list_sum (map (fun v => count_eq v s) vs) = List.length (dropna s).
Proof.
  intros Hnd. induction s as [|a s IH]; intros Hcover.
  - simpl. clear. induction vs as [|v vs IH]; simpl; [reflexivity | exact IH].
  - assert (IH' := IH (fun x Hx => Hcover x (or_intror Hx))).
    destruct a as [x|].
    + rewrite counts_cons_member; [|assumption|apply Hcover; now left].
      simpl. now rewrite IH'.
    + rewrite counts_cons_other by (intros v _; discriminate). exact IH'.
Qed.

Lemma dropna_NoDup {B : Type} (s : list (option B)) : NoDup s -> NoDup (dropna s).
Proof.
  induction 1 as [|a s Ha Hs IH]; simpl; [constructor|].
  destruct a as [b|]; [|exact IH].
  constructor; [|exact IH]. intros Hin. apply Ha. now apply dropna_In.
Qed.

Lemma list_sum_perm (l l' : list nat) : Permutation l l' -> list_sum l = list_sum l'.
Proof. induction 1; simpl; lia. Qed.

Lemma sorted_impl {A : Type} (R R' : A -> A -> Prop) (l : list A) :
  (forall a b, R a b -> R' a b) -> StronglySorted R l -> StronglySorted R' l.
Proof.
  intros H. induction 1 as [|x l Hs IH Hx]; constructor; [assumption|].
  rewrite Forall_forall in Hx |- *. intros y Hy. now apply H, Hx.
Qed.

Lemma value_counts_perm (s : list cat) :
  Permutation (value_counts s) (map (fun v => (v, count_eq v s)) (dropna (unique s))).
Proof. apply stable_sort_perm. Qed.

(** X6.  [value_counts()] lists each value of the column once, with the
    number of cells that hold it, which is at least 1; the counts add up to
    the number of cells that are not missing; and the most frequent value
    comes first. *)
Theorem value_counts_spec (s : list cat) :
  NoDup (map fst (value_counts s))
  /\ (forall v c, In (v, c) (value_counts s)
                  <-> In (Some v) s /\ c = count_eq v s /\ 1 <= c)
  /\ list_sum (map snd (value_counts s)) = List.length (dropna s)
  /\ StronglySorted (fun a b => snd b <= snd a) (value_counts s).
Proof.
  assert (Hperm := value_counts_perm s).
  assert (Hnd : NoDup (unique s)) by apply unique_acc_NoDup.
  assert (Hlabels : forall v, In v (dropna (unique s)) <-> In (Some v) s).
  { intros v. rewrite dropna_In. split.
    - intros H. now apply unique_acc_sound in H.
    - apply unique_complete. }
  split; [|split; [|split]].
  - apply (Permutation_NoDup (Permutation_sym (Permutation_map fst Hperm))).
    rewrite map_map. simpl. rewrite map_id. now apply dropna_NoDup.
  - intros v c. split.
    + intros H. apply (Permutation_in _ Hperm) in H.
      apply in_map_iff in H. destruct H as [w [Hw Hin']]. injection Hw as -> <-.
      apply Hlabels in Hin'. split; [assumption|]. split; [reflexivity|].
      now apply count_eq_pos.
    + intros [H1 [-> _]]. apply (Permutation_in _ (Permutation_sym Hperm)).
      apply in_map_iff. exists v. split; [reflexivity | now apply Hlabels].
  - rewrite (list_sum_perm _ _ (Permutation_map snd Hperm)).
    rewrite map_map. simpl. apply counts_total.
    + now apply dropna_NoDup.
    + intros x Hx. now apply Hlabels.
  - unfold value_counts.
    assert (Hs := stable_sort_sorted _ (fun y x : string * nat => Nat.ltb (snd x) (snd y))).
    eapply sorted_impl; [|apply Hs].
    + intros a b H. simpl in H. apply Nat.ltb_ge in H. exact H.
    + intros a b H. apply Nat.ltb_lt in H. apply Nat.ltb_ge. lia.
    + intros a b c H1 H2. apply Nat.ltb_ge in H1, H2. apply Nat.ltb_ge. lia.
Qed.

(* ================================================================= *)
(** ** The order of group keys *)

Lemma ascii_compare_refl (a : ascii) : Ascii.compare a a = Eq.
Proof. apply N.compare_refl. Qed.

Lemma ascii_compare_lt_trans (a b c : ascii) :
  Ascii.compare a b = Lt -> Ascii.compare b c = Lt -> Ascii.compare a c = Lt.
Proof.
  unfold Ascii.compare. rewrite !N.compare_lt_iff. apply N.lt_trans.
Qed.

Lemma string_compare_refl (s : string) : String.compare s s = Eq.
Proof.
  induction s as [|a s IH]; simpl; [reflexivity|].
  now rewrite ascii_compare_refl.
Qed.

Lemma string_compare_lt_trans (a b c : string) :
  String.compare a b = Lt -> String.compare b c = Lt -> String.compare a c = Lt.
Proof.
  revert b c. induction a as [|x a IH]; intros [|y b] [|z c]; simpl;
    try discriminate; try reflexivity.
  destruct (Ascii.compare x y) eqn:Exy; try discriminate;
    destruct (Ascii.compare y z) eqn:Eyz; try discriminate; intros H1 H2.
  - apply Ascii.compare_eq_iff in Exy, Eyz. subst.
    rewrite ascii_compare_refl. now apply (IH b c).
  - apply Ascii.compare_eq_iff in Exy. subst. now rewrite Eyz.
  - apply Ascii.compare_eq_iff in Eyz. subst. now rewrite Exy.
  - now rewrite (ascii_compare_lt_trans x y z Exy Eyz).
Qed.

Lemma gkey_compare_refl (a : gkey) : gkey_compare a a = Eq.
Proof.
  induction a as [|x a IH]; simpl; [reflexivity|].
  now rewrite string_compare_refl.
Qed.

Lemma gkey_compare_eq (a b : gkey) : gkey_compare a b = Eq -> a = b.
Proof.
  revert b. induction a as [|x a IH]; intros [|y b]; simpl; try discriminate;
    [reflexivity|].
  destruct (String.compare x y) eqn:E; try discriminate.
  intros H. apply String.compare_eq_iff in E. subst. f_equal. now apply IH.
Qed.

Lemma gkey_compare_antisym (a b : gkey) :
  gkey_compare a b = CompOpp (gkey_compare b a).
Proof.
  revert b. induction a as [|x a IH]; intros [|y b]; simpl; try reflexivity.
  rewrite String.compare_antisym.
  destruct (String.compare y x); simpl; [apply IH | reflexivity | reflexivity].
Qed.

Lemma gkey_compare_lt_trans (a b c : gkey) :
  gkey_compare a b = Lt -> gkey_compare b c = Lt -> gkey_compare a c = Lt.
Proof.
  revert b c. induction a as [|x a IH]; intros [|y b] [|z c]; simpl;
    try discriminate; try reflexivity.
  destruct (String.compare x y) eqn:Exy; try discriminate;
    destruct (String.compare y z) eqn:Eyz; try discriminate; intros H1 H2.
  - apply String.compare_eq_iff in Exy, Eyz. subst.
    rewrite string_compare_refl. now apply (IH b c).
  - apply String.compare_eq_iff in Exy. subst. now rewrite Eyz.
  - apply String.compare_eq_iff in Eyz. subst. now rewrite Exy.
  - now rewrite (string_compare_lt_trans x y z Exy Eyz).
Qed.

(** [gkey_ltb] decides the lexicographic order. *)
Lemma gkey_ltb_compare (a b : gkey) :
  gkey_ltb a b = match gkey_compare a b with Lt => true | _ => false end.
Proof.
  revert b. induction a as [|x a IH]; intros [|y b]; simpl; try reflexivity.
  unfold String.ltb. destruct (String.compare x y) eqn:E.
  - apply String.compare_eq_iff in E. subst. rewrite String.eqb_refl. apply IH.
  - reflexivity.
  - destruct (String.eqb x y) eqn:Eq; [|reflexivity].
    apply String.eqb_eq in Eq. subst. rewrite string_compare_refl in E. discriminate.
Qed.

Lemma gkey_ltb_asym (a b : gkey) : gkey_ltb a b = true -> gkey_ltb b a = false.
Proof.
  rewrite !gkey_ltb_compare, (gkey_compare_antisym b a).
  now destruct (gkey_compare a b).
Qed.

Lemma gkey_ltb_total (a b : gkey) : gkey_ltb b a = false -> a <> b -> gkey_ltb a b = true.
Proof.
  rewrite !gkey_ltb_compare, (gkey_compare_antisym b a).
  destruct (gkey_compare a b) eqn:E; simpl; try discriminate; try reflexivity.
  intros _ Hne. apply gkey_compare_eq in E. contradiction.
Qed.

Lemma gkey_le_trans (a b c : gkey) :
  gkey_ltb b a = false -> gkey_ltb c b = false -> gkey_ltb c a = false.
Proof.
  intros H1 H2.
  destruct (gkey_dec a b) as [->|Hab]; [assumption|].
  destruct (gkey_dec b c) as [->|Hbc]; [assumption|].
  assert (L1 := gkey_ltb_total a b H1 Hab).
  assert (L2 := gkey_ltb_total b c H2 Hbc).
  rewrite gkey_ltb_compare in L1, L2.
  destruct (gkey_compare a b) eqn:E1; try discriminate.
  destruct (gkey_compare b c) eqn:E2; try discriminate.
  apply gkey_ltb_asym. rewrite gkey_ltb_compare.
  now rewrite (gkey_compare_lt_trans a b c E1 E2).
Qed.

Lemma sorted_strict (l : list gkey) :
  StronglySorted (fun a b => gkey_ltb b a = false) l -> NoDup l ->
  StronglySorted gkey_lt l.
Proof.
  induction 1 as [|x l Hs IH Hx]; intros Hnd; constructor.
  - apply IH. now inversion Hnd.
  - inversion Hnd as [|? ? Hnotin _]; subst.
    rewrite Forall_forall in Hx |- *. intros y Hy.
    apply gkey_ltb_total; [now apply Hx|]. intros ->. contradiction.
Qed.

Lemma group_keys_sorted (key : Row -> option gkey) (df : DataFrame) :
  StronglySorted gkey_lt (group_keys key df).
Proof.
  apply sorted_strict.
  - unfold group_keys. apply stable_sort_sorted.
    + apply gkey_ltb_asym.
    + apply gkey_le_trans.
  - apply (Permutation_NoDup (Permutation_sym (group_keys_perm key df))).
    apply NoDup_nodup.
Qed.

Lemma group_keys_In (key : Row -> option gkey) (df : DataFrame) (k : gkey) :
  In k (group_keys key df) <-> exists r, In r df /\ key r = Some k.
Proof.
  split.
  - intros H. apply (Permutation_in _ (group_keys_perm key df)) in H.
    apply nodup_In, dropna_In, in_map_iff in H.
    destruct H as [r [Hr Hin]]. now exists r.
  - intros [r [Hin Hr]]. apply (Permutation_in _ (Permutation_sym (group_keys_perm key df))).
    apply nodup_In, dropna_In. rewrite <- Hr. now apply in_map.
Qed.

Lemma group_rows_In (key : Row -> option gkey) (k : gkey) (df : DataFrame) (r : Row) :
  In r (group_rows key k df) <-> In r df /\ key r = Some k.
Proof.
  unfold group_rows. rewrite filter_In. unfold has_key.
  destruct (key r) as [k'|]; [|split; [intros [_ H]|intros [_ H]]; discriminate].
  destruct (gkey_dec k' k) as [->|Hne].
  - tauto.
  - split; [intros [_ H]; discriminate | intros [_ H]; congruence].
Qed.

(* ================================================================= *)
(** ** Sums over groups *)



(** X7.  A [groupby] lists the groups in strictly ascending order of their
    keys, one entry for each key observed in the view and for no other; the
    entry holds the aggregate of the rows with that key, in the order of the
    view, and no group is empty. *)
Theorem groupby_spec {V : Type} (key : Row -> option gkey) (agg : DataFrame -> V)
    (view : DataFrame) :
  StronglySorted gkey_lt (map fst (groupby key agg view))
  /\ (forall k, In k (map fst (groupby key agg view))
                <-> exists r, In r view /\ key r = Some k)
  /\ (forall k v, In (k, v) (groupby key agg view) ->
                  v = agg (group_rows key k view) /\ group_rows key k view <> [])
  /\ (forall k, subseq (group_rows key k view) view
                /\ forall r, In r (group_rows key k view) <-> In r view /\ key r = Some k).
Proof.
  assert (Hkeys : map fst (groupby key agg view) = group_keys key view).
  { unfold groupby. rewrite map_map. simpl. apply map_id. }
  rewrite Hkeys. split; [apply group_keys_sorted|].
  split; [apply group_keys_In|]. split.
  - intros k v H. unfold groupby in H. apply in_map_iff in H.
    destruct H as [k' [Heq Hin]]. injection Heq as -> <-.
    split; [reflexivity|].
    apply group_keys_In in Hin. destruct Hin as [r [Hr Hk]].
    intros Hnil. assert (Hin : In r (group_rows key k view)) by now apply group_rows_In.
    rewrite Hnil in Hin. contradiction.
  - intros k. split; [apply subseq_filter | apply group_rows_In].
Qed.

(* ================================================================= *)
(** ** Sorted tables *)

Lemma Qlt_bool_asym (a b : Q) : Qlt_bool a b = true -> Qlt_bool b a = false.
Proof.
  intros H. apply Qlt_bool_true in H. unfold Qlt_bool.
  apply negb_false_iff, Qle_bool_iff. now apply Qlt_le_weak.
Qed.

Lemma Qlt_bool_le (a b : Q) : (a <= b)%Q -> Qlt_bool b a = false.
Proof.
  intros H. unfold Qlt_bool. now apply negb_false_iff, Qle_bool_iff.
Qed.

Lemma sort_values_asc_sorted {A : Type} (key : A -> Q) (l : list A) :
  StronglySorted (fun a b => key a <= key b)%Q (sort_values_asc key l).
Proof.
  unfold sort_values_asc.
  eapply sorted_impl;
    [|apply (stable_sort_sorted _ (fun y x => Qlt_bool (key y) (key x)))].
  - intros a b H. simpl in H. now apply Qlt_bool_false.
  - intros a b. apply Qlt_bool_asym.
  - intros a b c H1 H2. apply Qlt_bool_false in H1, H2. apply Qlt_bool_le.
    now apply Qle_trans with (key b).
Qed.

(** X8.  The bar chart of products sold lists the locations of the grouped
    table, each once, by ascending total; the bar chart of shipping times
    lists the carriers of the grouped table by descending mean, carriers
    without a mean last. *)
Theorem sorted_charts (view : DataFrame) :
  let d := dashboard view in
  (Permutation (products_by_location d)
     (groupby (by1 (@Location _)) (sum_of (@Number_of_products_sold _)) view)
   /\ StronglySorted (fun a b => snd a <= snd b)%Q (products_by_location d)
   /\ NoDup (map fst (products_by_location d)))
  /\ (Permutation (avg_shipping_time d)
        (groupby (by1 (@Shipping_carriers _)) (mean_of (@Shipping_times _)) view)
      /\ StronglySorted (desc_le snd) (avg_shipping_time d)
      /\ NoDup (map fst (avg_shipping_time d))).
Proof.
  assert (Hnd : forall (V : Type) key (agg : DataFrame -> V) (t : list (gkey * V)),
             Permutation t (groupby key agg view) -> NoDup (map fst t)).
  { intros V key agg t Hp.
    apply (Permutation_NoDup (Permutation_sym (Permutation_map fst Hp))).
    unfold groupby. rewrite map_map. simpl. rewrite map_id.
    apply (Permutation_NoDup (Permutation_sym (group_keys_perm key view))).
    apply NoDup_nodup. }
  simpl. split.
  - assert (Hp : Permutation
                   (sort_values_asc snd
                      (groupby (by1 (@Location _)) (sum_of (@Number_of_products_sold _)) view))
                   (groupby (by1 (@Location _)) (sum_of (@Number_of_products_sold _)) view))
      by apply stable_sort_perm.
    split; [exact Hp|]. split; [apply sort_values_asc_sorted | exact (Hnd _ _ _ _ Hp)].
  - assert (Hp := sort_values_desc_perm _ snd
                    (groupby (by1 (@Shipping_carriers _)) (mean_of (@Shipping_times _)) view)).
    split; [exact Hp|]. split; [apply sort_values_desc_sorted | exact (Hnd _ _ _ _ Hp)].
Qed.

(* ================================================================= *)
(** ** Rates *)

Lemma count_eq_le (label : string) (s : list cat) :
  count_eq label s <= List.length s.
Proof.
  induction s as [|a s IH].
  - unfold count_eq. simpl. lia.
  - rewrite count_eq_cons. simpl List.length.
    destruct (cat_eqb a (Some label)); lia.
Qed.

Lemma count_eq_zero (label : string) (s : list cat) :
  count_eq label s = 0 <-> Forall (fun v => v <> Some label) s.
Proof.
  induction s as [|a s IH].
  - unfold count_eq. simpl. split; [constructor | reflexivity].
  - rewrite count_eq_cons.
    destruct (cat_eqb a (Some label)) eqn:E.
    + apply cat_eqb_eq in E. split; [intros H; simpl in H; discriminate|].
      intros H. inversion H; contradiction.
    + assert (Hne : a <> Some label).
      { intros H. apply cat_eqb_eq in H. congruence. }
      simpl. rewrite IH. split.
      * intros H. now constructor.
      * intros H. now inversion H.
Qed.

Lemma rate_value (c n : nat) :
  n <> 0 ->
  rate c n = Some (inject_Z (Z.of_nat c) / inject_Z (Z.of_nat n) * 100)%Q.
Proof.
  intros H. unfold rate. destruct (Nat.eqb n 0) eqn:E; [|reflexivity].
  apply Nat.eqb_eq in E. contradiction.
Qed.

Lemma percent_bounds (c n : nat) :
  n <> 0 -> c <= n ->
  (0 <= inject_Z (Z.of_nat c) / inject_Z (Z.of_nat n) * 100)%Q
  /\ (inject_Z (Z.of_nat c) / inject_Z (Z.of_nat n) * 100 <= 100)%Q
  /\ ((inject_Z (Z.of_nat c) / inject_Z (Z.of_nat n) * 100 == 0)%Q <-> c = 0).
Proof.
  intros Hn Hc.
  assert (Hpos : (0 < Z.of_nat n)%Z) by lia.
  unfold Qle, Qeq, Qdiv, Qmult, Qinv, inject_Z. simpl.
  destruct (Z.of_nat n) as [|p|p] eqn:E; try lia. simpl.
  split; [|split]; nia.
Qed.

(** X9.  The pass rate and the fail rate of the summary are NaN on a view
    without rows.  On a view with rows each is a number from 0 to 100, and
    it is 0 exactly when no row has that inspection result. *)
Theorem rates_spec (view : DataFrame) :
  match view with
  | [] => pass_rate (dashboard view) = None /\ fail_rate (dashboard view) = None
  | _ :: _ =>
      exists p f,
        pass_rate (dashboard view) = Some p /\ fail_rate (dashboard view) = Some f
        /\ (0 <= p)%Q /\ (p <= 100)%Q /\ (0 <= f)%Q /\ (f <= 100)%Q
        /\ ((p == 0)%Q
            <-> Forall (fun r => Inspection_results r <> Some "Pass"%string) view)
        /\ ((f == 0)%Q
            <-> Forall (fun r => Inspection_results r <> Some "Fail"%string) view)
  end.
Proof.
  destruct view as [|r0 view0]; [split; reflexivity|].
  set (view := r0 :: view0).
  assert (Hn : List.length view <> 0) by discriminate.
  change (pass_rate (dashboard view))
    with (rate (count_eq "Pass" (column (@Inspection_results _) view)) (List.length view)).
  change (fail_rate (dashboard view))
    with (rate (count_eq "Fail" (column (@Inspection_results _) view)) (List.length view)).
  rewrite !rate_value by assumption.
  set (s := column (@Inspection_results _) view).
  assert (Hlen : List.length s = List.length view) by apply length_map.
  assert (Hp := count_eq_le "Pass" s). assert (Hf := count_eq_le "Fail" s).
  rewrite Hlen in Hp, Hf.
  destruct (percent_bounds _ _ Hn Hp) as [Hp0 [Hp1 Hpz]].
  destruct (percent_bounds _ _ Hn Hf) as [Hf0 [Hf1 Hfz]].
  do 2 eexists. split; [reflexivity|]. split; [reflexivity|].
  split; [exact Hp0|]. split; [exact Hp1|]. split; [exact Hf0|]. split; [exact Hf1|].
  split.
  - rewrite Hpz, count_eq_zero. unfold s, column. rewrite Forall_map. reflexivity.
  - rewrite Hfz, count_eq_zero. unfold s, column. rewrite Forall_map. reflexivity.
Qed.

(* ================================================================= *)
(** ** Mean, minimum and maximum *)

Lemma Qmax_ge (a b : Q) : (a <= Qmax a b /\ b <= Qmax a b)%Q.
Proof.
  unfold Qmax. destruct (Qle_bool a b) eqn:E.
  - apply Qle_bool_iff in E. split; [assumption | apply Qle_refl].
  - split; [apply Qle_refl|].
    destruct (Qlt_le_dec a b) as [H|H]; [|assumption].
    apply Qlt_le_weak, Qle_bool_iff in H. congruence.
Qed.

Lemma Qmin_le (a b : Q) : (Qmin a b <= a /\ Qmin a b <= b)%Q.
Proof.
  unfold Qmin. destruct (Qle_bool a b) eqn:E.
  - apply Qle_bool_iff in E. split; [apply Qle_refl | assumption].
  - split; [|apply Qle_refl].
    destruct (Qlt_le_dec a b) as [H|H]; [|assumption].
    apply Qlt_le_weak, Qle_bool_iff in H. congruence.
Qed.

Lemma fold_Qmax_ge (l : list Q) (x : Q) :
  (x <= fold_left Qmax l x)%Q /\ Forall (fun y => y <= fold_left Qmax l x)%Q l.
Proof.
  revert x. induction l as [|a l IH]; intros x; simpl.
  - split; [apply Qle_refl | constructor].
  - destruct (IH (Qmax x a)) as [H1 H2]. destruct (Qmax_ge x a) as [Hx Ha].
    split; [now apply Qle_trans with (Qmax x a)|].
    constructor; [now apply Qle_trans with (Qmax x a) | assumption].
Qed.

Lemma fold_Qmin_le (l : list Q) (x : Q) :
  (fold_left Qmin l x <= x)%Q /\ Forall (fun y => fold_left Qmin l x <= y)%Q l.
Proof.
  revert x. induction l as [|a l IH]; intros x; simpl.
  - split; [apply Qle_refl | constructor].
  - destruct (IH (Qmin x a)) as [H1 H2]. destruct (Qmin_le x a) as [Hx Ha].
    split; [now apply Qle_trans with (Qmin x a)|].
    constructor; [now apply Qle_trans with (Qmin x a) | assumption].
Qed.

Lemma fold_Qmax_In (l : list Q) (x : Q) : In (fold_left Qmax l x) (x :: l).
Proof.
  revert x. induction l as [|a l IH]; intros x; simpl.
  - now left.
  - destruct (IH (Qmax x a)) as [H|H].
    + unfold Qmax in H at 1. destruct (Qle_bool x a); [right; now left | now left].
    + right. now right.
Qed.

Lemma fold_Qmin_In (l : list Q) (x : Q) : In (fold_left Qmin l x) (x :: l).
Proof.
  revert x. induction l as [|a l IH]; intros x; simpl.
  - now left.
  - destruct (IH (Qmin x a)) as [H|H].
    + unfold Qmin in H at 1. destruct (Qle_bool x a); [now left | right; now left].
    + right. now right.
Qed.

Lemma Qsum_le_bound (l : list Q) (m : Q) :
  Forall (fun y => y <= m)%Q l ->
  (Qsum l <= inject_Z (Z.of_nat (List.length l)) * m)%Q.
Proof.
  induction 1 as [|y l Hy Hl IH].
  - change (0 <= 0 * m)%Q. rewrite Qmult_0_l. apply Qle_refl.
  - change (Qsum (y :: l)) with (y + Qsum l)%Q.
    change (List.length (y :: l)) with (S (List.length l)).
    rewrite Nat2Z.inj_succ. unfold Z.succ. rewrite inject_Z_plus.
    change (inject_Z 1) with 1%Q. Lqa.lra.
Qed.

Lemma Qsum_ge_bound (l : list Q) (m : Q) :
  Forall (fun y => m <= y)%Q l ->
  (inject_Z (Z.of_nat (List.length l)) * m <= Qsum l)%Q.
Proof.
  induction 1 as [|y l Hy Hl IH].
  - change (0 * m <= 0)%Q. rewrite Qmult_0_l. apply Qle_refl.
  - change (Qsum (y :: l)) with (y + Qsum l)%Q.
    change (List.length (y :: l)) with (S (List.length l)).
    rewrite Nat2Z.inj_succ. unfold Z.succ. rewrite inject_Z_plus.
    change (inject_Z 1) with 1%Q. Lqa.lra.
Qed.

(** The three statistics of a column: all NaN when the column holds no
    value; otherwise the minimum and the maximum are values of the column
    that bound every value, and the mean lies between them. *)
Lemma series_statistics (s : list num) :
  match series_min s, series_mean s, series_max s with
  | Some lo, Some avg, Some hi =>
      (lo <= avg /\ avg <= hi)%Q
      /\ In (Some lo) s /\ In (Some hi) s
      /\ (forall q, In (Some q) s -> lo <= q /\ q <= hi)%Q
  | None, None, None => forall v, In v s -> v = None
  | _, _, _ => False
  end.
Proof.
  unfold series_min, series_mean, series_max.
  assert (Hin : forall q, In (Some q) s <-> In q (dropna s))
    by (intros q; symmetry; apply dropna_In).
  destruct (dropna s) as [|x l] eqn:E.
  - intros [q|] Hv; [|reflexivity]. apply Hin in Hv. contradiction.
  - destruct (fold_Qmax_ge l x) as [Hx Hl]. destruct (fold_Qmin_le l x) as [Hx' Hl'].
    set (hi := fold_left Qmax l x) in *. set (lo := fold_left Qmin l x) in *.
    assert (Hall : forall q, In q (x :: l) -> (lo <= q /\ q <= hi)%Q).
    { intros q [<-|Hq]; [now split|].
      rewrite Forall_forall in Hl, Hl'. split; [now apply Hl' | now apply Hl]. }
    assert (Hn : (0 < inject_Z (Z.of_nat (List.length (x :: l))))%Q).
    { replace 0%Q with (inject_Z 0) by reflexivity. rewrite <- Zlt_Qlt. simpl. lia. }
    split; [|split; [|split]].
    + split.
      * apply Qle_shift_div_l; [assumption|]. rewrite Qmult_comm.
        apply Qsum_ge_bound. apply Forall_forall. intros q Hq. now apply Hall.
      * apply Qle_shift_div_r; [assumption|]. rewrite Qmult_comm.
        apply Qsum_le_bound. apply Forall_forall. intros q Hq. now apply Hall.
    + apply Hin. apply fold_Qmin_In.
    + apply Hin. apply fold_Qmax_In.
    + intros q Hq. apply Hall. now apply Hin.
Qed.

Lemma revenue_statistics (view : DataFrame) :
  match average_revenue (dashboard view), max_revenue (dashboard view) with
  | Some avg, Some hi =>
      (avg <= hi)%Q
      /\ (exists r, In r view /\ Revenue_generated r = Some hi)
      /\ (forall r q, In r view -> Revenue_generated r = Some q -> (q <= hi)%Q)
  | None, None => forall r, In r view -> Revenue_generated r = None
  | _, _ => False
  end.
Proof.
  simpl. assert (H := series_statistics (column (@Revenue_generated _) view)).
  destruct (series_min (column (@Revenue_generated _) view)) as [lo|];
    destruct (series_mean (column (@Revenue_generated _) view)) as [avg|];
    destruct (series_max (column (@Revenue_generated _) view)) as [hi|];
    try contradiction.
  - destruct H as [[_ Havg] [_ [Hhi Hall]]]. split; [exact Havg|]. split.
    + unfold column in Hhi. apply in_map_iff in Hhi. destruct Hhi as [r [Hr Hin]].
      now exists r.
    + intros r q Hr Hq. apply Hall. rewrite <- Hq. unfold column. now apply in_map.
  - intros r Hr. apply H. unfold column. now apply in_map.
Qed.


(* ================================================================= *)
(** ** The radar chart *)

Lemma normalize_in_range (s : list num) : Forall in_range (normalize s).
Proof.
  unfold normalize. apply Forall_forall. intros y Hy.
  apply in_map_iff in Hy. destruct Hy as [x [<- Hx]].
  assert (H := series_statistics s).
  destruct x as [v|]; [|exact I].
  destruct (series_min s) as [lo|]; [|exact I].
  destruct (series_mean s) as [avg|]; [|destruct (series_max s); [contradiction | exact I]].
  destruct (series_max s) as [hi|]; [|contradiction].
  destruct H as [_ [_ [_ Hall]]]. destruct (Hall v Hx) as [Hlo Hhi].
  destruct (Qeq_bool (hi - lo) 0) eqn:E; [exact I|].
  assert (Hne : ~ (hi - lo == 0)%Q).
  { intros H. apply Qeq_bool_iff in H. congruence. }
  assert (Hpos : (0 < hi - lo)%Q) by Lqa.lra.
  assert (H0 : (0 <= (v - lo) / (hi - lo))%Q).
  { apply Qle_shift_div_l; [assumption|]. Lqa.lra. }
  assert (H1 : ((v - lo) / (hi - lo) <= 1)%Q).
  { apply Qle_shift_div_r; [assumption|]. Lqa.lra. }
  simpl. split; Lqa.lra.
Qed.

Lemma normalize_single (s : list num) :
  List.length s <= 1 -> Forall (fun v => v = None) (normalize s).
Proof.
  destruct s as [|x [|y s]]; simpl; intros H; try lia.
  - constructor.
  - constructor; [|constructor]. unfold normalize. simpl.
    destruct x as [v|]; [|reflexivity].
    unfold series_min, series_max. simpl.
    assert (E : Qeq_bool (v - v) 0 = true) by (apply Qeq_bool_iff; ring).
    now rewrite E.
Qed.

(** X11.  The radar chart has five columns of values, one value per product
    type of the view in each; every value is NaN or lies within the radial
    axis, from 0 to 100; and when the view holds a single product type every
    value is NaN. *)
Theorem radar_values (view : DataFrame) :
  let m := metrics_by_product (dashboard view) in
  List.length (snd m) = 5
  /\ Forall (fun c => List.length c = List.length (fst m) /\ Forall in_range c) (snd m)
  /\ (List.length (fst m) <= 1 -> Forall (Forall (fun v => v = None)) (snd m)).
Proof.
  simpl.
  assert (Hlen : forall measure,
             List.length (map snd (groupby (by1 (@Product_Type _)) (mean_of measure) view))
             = List.length (group_keys (by1 (@Product_Type _)) view)).
  { intros measure. unfold groupby. now rewrite !length_map. }
  split; [reflexivity|]. split.
  - repeat constructor; try apply normalize_in_range;
      unfold normalize; rewrite length_map; apply Hlen.
  - intros H. repeat constructor; apply normalize_single; now rewrite Hlen.
Qed.

Lemma radar_values_witness :
  let m := metrics_by_product (dashboard df3) in
  List.length (fst m) = 2
  /\ Forall (fun c => List.length c = List.length (fst m) /\ Forall in_range c) (snd m)
  /\ Forall (Forall (fun v => v = None))
       (snd (metrics_by_product (dashboard [row_a1; row_a2]))).
Proof.
  split; [reflexivity|]. split.
  - apply (radar_values df3).
  - apply (radar_values [row_a1; row_a2]). simpl. lia.
Defined.

(* ================================================================= *)
(** ** Correlation: bounds *)

Section CauchySchwarz.

Variable P : Type.
Variables f g : P -> Q.

Lemma sum_products_bound (ps : list P) :
  (0 <= Qsum (map (fun p => f p * f p) ps)
   /\ 0 <= Qsum (map (fun p => g p * g p) ps)
   /\ Qsum (map (fun p => f p * g p) ps) * Qsum (map (fun p => f p * g p) ps)
      <= Qsum (map (fun p => f p * f p) ps) * Qsum (map (fun p => g p * g p) ps))%Q.
Proof.
  induction ps as [|p ps [HA [HB HC]]].
  - simpl. repeat split; Lqa.lra.
  - simpl.
    set (A := Qsum (map (fun p => (f p * f p)%Q) ps)) in *.
    set (B := Qsum (map (fun p => (g p * g p)%Q) ps)) in *.
    set (C := Qsum (map (fun p => (f p * g p)%Q) ps)) in *.
    set (a := f p). set (b := g p).
    assert (Ha := Qsquare_nonneg a). assert (Hb := Qsquare_nonneg b).
    split; [Lqa.lra|]. split; [Lqa.lra|].
    assert (H1 : (0 <= A * (A * (b * b) + a * a * B - 2 * a * b * C))%Q).
    { setoid_replace (A * (A * (b * b) + a * a * B - 2 * a * b * C))%Q
        with ((A * b - a * C) * (A * b - a * C) + (a * a) * (A * B - C * C))%Q by ring.
      assert (H2 := Qsquare_nonneg (A * b - a * C)).
      assert (H4 : (0 <= (a * a) * (A * B - C * C))%Q)
        by (apply Qmult_le_0_compat; [assumption | Lqa.lra]).
      Lqa.lra. }
    assert (HX : (0 <= A * (b * b) + a * a * B - 2 * a * b * C)%Q).
    { destruct (Qlt_le_dec 0 A) as [Hpos|Hle].
      - Lqa.nra.
      - assert (HA0 : (A == 0)%Q) by Lqa.lra.
        assert (HC2 := Qsquare_nonneg C).
        assert (HC0 : (C * C == 0)%Q) by (rewrite HA0 in HC; Lqa.lra).
        apply Qmult_integral in HC0. assert (HC' : (C == 0)%Q) by tauto.
        rewrite HA0, HC'.
        assert (H4 : (0 <= (a * a) * B)%Q) by (apply Qmult_le_0_compat; assumption).
        Lqa.lra. }
    Lqa.lra.
Qed.

End CauchySchwarz.

Lemma combine_twice (ps : list (Q * Q)) (h : Q * Q -> Q) :
  combine (map h ps) (map h ps) = map (fun p => (h p, h p)) ps.
Proof.
  induction ps as [|p ps IH]; simpl; [reflexivity | now rewrite IH].
Qed.

(** The squared co-deviation of two columns is at most the product of their
    squared deviations. *)
Lemma codeviation_bound (ps : list (Q * Q)) :
  let xs := map fst ps in
  let ys := map snd ps in
  (codeviation xs ys * codeviation xs ys <= codeviation xs xs * codeviation ys ys)%Q.
Proof.
  intros xs ys. unfold codeviation.
  assert (Hxy : combine xs ys = ps) by apply combine_fst_snd.
  assert (Hxx : combine xs xs = map (fun p => (fst p, fst p)) ps) by apply combine_twice.
  assert (Hyy : combine ys ys = map (fun p => (snd p, snd p)) ps) by apply combine_twice.
  rewrite Hxy, Hxx, Hyy, !map_map. simpl.
  apply (sum_products_bound _ (fun p => fst p - Qmean xs)%Q (fun p => snd p - Qmean ys)%Q ps).
Qed.

Lemma correlation_ratio_bound (c p : R) :
  (0 < p -> c * c <= p -> -1 <= c / sqrt p <= 1)%R.
Proof.
  intros Hp Hc.
  assert (Hs : (0 < sqrt p)%R) by now apply sqrt_lt_R0.
  assert (Hss : (sqrt p * sqrt p = p)%R) by (apply sqrt_sqrt; lra).
  set (s := sqrt p) in *. clearbody s.
  assert (Hc1 : (c <= s)%R).
  { destruct (Rle_lt_dec c s) as [H|H]; [assumption|]. exfalso.
    assert (s * s < c * c)%R by (apply Rmult_le_0_lt_compat; lra). lra. }
  assert (Hc2 : (- s <= c)%R).
  { destruct (Rle_lt_dec (- s) c) as [H|H]; [assumption|]. exfalso.
    assert (s * s < (- c) * (- c))%R by (apply Rmult_le_0_lt_compat; lra). lra. }
  split.
  - apply Rmult_le_reg_r with s; [assumption|].
    unfold Rdiv. rewrite Rmult_assoc, Rinv_l by lra. lra.
  - apply Rmult_le_reg_r with s; [assumption|].
    unfold Rdiv. rewrite Rmult_assoc, Rinv_l by lra. lra.
Qed.

Lemma pearson_bounded (ps : list (Q * Q)) (r : R) :
  pearson ps = Some r -> (-1 <= r <= 1)%R.
Proof.
  unfold pearson. destruct (Nat.ltb (List.length ps) 1); [discriminate|].
  set (xs := map fst ps). set (ys := map snd ps).
  destruct (Qeq_bool (codeviation xs xs * codeviation ys ys) 0) eqn:E; [discriminate|].
  intros H. injection H as <-.
  assert (Hne : ~ (codeviation xs xs * codeviation ys ys == 0)%Q).
  { intros H. apply Qeq_bool_iff in H. congruence. }
  assert (Hx := codeviation_self_nonneg xs). assert (Hy := codeviation_self_nonneg ys).
  assert (Hpos : (0 < codeviation xs xs * codeviation ys ys)%Q).
  { assert (0 <= codeviation xs xs * codeviation ys ys)%Q
      by now apply Qmult_le_0_compat.
    Lqa.lra. }
  apply correlation_ratio_bound.
  - replace 0%R with (Q2R 0) by apply RMicromega.Q2R_0. now apply Qlt_Rlt.
  - rewrite <- Q2R_mult. apply Qle_Rle. apply codeviation_bound.
Qed.

(** X12.  Every entry of the correlation matrix that is a number lies
    between -1 and 1. *)
Theorem corr_bounded (columns : list (Row -> num)) (view : DataFrame)
    (i j : nat) (r : R) :
  entry (corr columns view) i j = Some (Some r) -> (-1 <= r <= 1)%R.
Proof.
  rewrite entry_corr.
  destruct (nth_error columns i) as [cx|]; [|discriminate].
  destruct (nth_error columns j) as [cy|]; [|discriminate].
  intros H. injection H as H. now apply pearson_bounded in H.
Qed.

Lemma corr_bounded_witness :
  exists r, entry (corr numeric_cols df_priced) 0 3 = Some (Some r) /\ (-1 <= r <= 1)%R.
Proof.
  eexists. split.
  - reflexivity.
  - apply (corr_bounded numeric_cols df_priced 0 3). reflexivity.
Defined.

(* ================================================================= *)
(** ** Widgets left at their default *)

Lemma multiselect_member (s : list cat) (state : option (list cat)) (v : cat) :
  In v s ->
  existsb (cat_eqb v) (multiselect (unique s) state) = lets_through state v.
Proof.
  intros H. destruct state as [chosen|]; simpl; [reflexivity|].
  apply existsb_cat_In. now apply unique_complete.
Qed.

(** X13.  A widget the user has not changed restricts nothing: the view of
    a run holds the rows of the dataset that each changed widget lets
    through, whatever the other widgets would offer. *)
Theorem untouched_widget_is_no_filter (df : DataFrame) (w : Widgets) :
  df_filtered df (sidebar df w)
  = filter (fun r => lets_through (w_product_type w) (Product_Type r)
                     && lets_through (w_location w) (Location r)
                     && lets_through (w_transport w) (Transportation_modes r)) df.
Proof.
  rewrite df_filtered_filter. apply filter_agree. intros r Hr.
  unfold selectedb, sidebar. simpl.
  rewrite !multiselect_member; [reflexivity| | |];
    unfold column; now apply in_map.
Qed.

(* ================================================================= *)
(** ** The top product and the maximum *)

(** X14.  The treemap and the summary agree: when some row of the view has
    a revenue, the first of the top products is a row whose revenue is the
    Max Revenue of the summary; when none has, the top products are rows
    without revenue and the maximum is NaN. *)
Theorem top_product_has_max_revenue (view : DataFrame) :
  match max_revenue (dashboard view) with
  | Some hi =>
      exists r rest q,
        top_products (dashboard view) = r :: rest
        /\ Revenue_generated r = Some q /\ (q == hi)%Q
  | None => Forall (fun r => Revenue_generated r = None) (top_products (dashboard view))
  end.
Proof.
  assert (Hsum := revenue_statistics view). simpl in *.
  assert (Hperm := sort_values_desc_perm Row (@Revenue_generated num) view).
  assert (Hsorted := sort_values_desc_sorted Row (@Revenue_generated num) view).
  unfold nlargest.
  destruct (series_mean (column (@Revenue_generated _) view)) as [avg|];
    destruct (series_max (column (@Revenue_generated _) view)) as [hi|];
    try contradiction.
  - destruct Hsum as [_ [[r0 [Hr0 Hhi]] Hmax]].
    apply (Permutation_in _ (Permutation_sym Hperm)) in Hr0.
    destruct (@sort_values_desc Row (@Revenue_generated num) view) as [|h t] eqn:E;
      [contradiction|].
    inversion Hsorted as [|? ? _ Hh]; subst.
    assert (Hhv : In h view).
    { apply (Permutation_in _ Hperm). now left. }
    assert (Hge : desc_le (@Revenue_generated num) h r0).
    { destruct Hr0 as [<-|Hr0].
      - unfold desc_le. rewrite Hhi. apply Qle_refl.
      - rewrite Forall_forall in Hh. now apply Hh. }
    unfold desc_le in Hge. rewrite Hhi in Hge.
    destruct (Revenue_generated h) as [q|] eqn:Eq; [|contradiction].
    exists h, (firstn 9 t), q. split; [reflexivity|]. split; [exact Eq|].
    apply Qle_antisym; [now apply (Hmax h q) | assumption].
  - apply Forall_forall. intros r Hr. apply Hsum.
    apply (Permutation_in _ Hperm).
    rewrite <- (firstn_skipn 10 (@sort_values_desc Row (@Revenue_generated num) view)).
    apply in_or_app. now left.
Qed.
